(** * Query compilation and batched execution of BD_Classes

    Shallow embedding of [async_pg.py] ([PostgresHandler], the pooled
    backend with numbered placeholders [$1, $2, ...]) and [async_sqlite.py]
    ([SqliteHandler], the embedded backend with [?] placeholders).

    Python dicts are association lists in insertion order; Python ints are
    [Z] (or [nat] where the source only uses lengths and indices); [None] is
    [VNull]. The asynchronous operations run in a small state-and-exception
    monad whose state holds the connection handle, the trace of driver calls
    and the log. *)

From Stdlib Require Import List String Ascii ZArith Lia Bool.
From Stdlib Require Import DecimalString.
Import ListNotations.
Open Scope string_scope.

(** ** Data model *)

(** A scalar Python value as held in a Record or Condition. *)
Inductive value :=
| VNull
| VInt (z : Z)
| VStr (s : string).

Definition is_none (v : value) : bool :=
  match v with VNull => true | _ => false end.

(** A Record / Condition: a Python dict [column -> value]. *)
Definition dict := list (string * value).

Definition dict_keys (d : dict) : list string := map fst d.
Definition dict_values (d : dict) : list value := map snd d.

(** [str(n)] for a non-negative Python int. *)
Definition str_nat (n : nat) : string :=
  NilZero.string_of_uint (Nat.to_uint n).

(** [str(z)] for a Python int. *)
Definition str_Z (z : Z) : string :=
  NilZero.string_of_int (Z.to_int z).

(** [sep.join(l)] *)
Fixpoint join (sep : string) (l : list string) : string :=
  match l with
  | [] => ""
  | [x] => x
  | x :: xs => x ++ sep ++ join sep xs
  end.

(** [[f(i, x) for i, x in enumerate(l)]] *)
Fixpoint enum_map_from {A B} (f : nat -> A -> B) (i : nat) (l : list A) : list B :=
  match l with
  | [] => []
  | x :: xs => f i x :: enum_map_from f (S i) xs
  end.

Definition enum_map {A B} (f : nat -> A -> B) (l : list A) : list B :=
  enum_map_from f 0 l.

(** ** Statement builders of the pooled backend ([async_pg.py]) *)
Module Pg.

(** One AND-clause of [build_select_query] (lines 186-191):
    [f"{key} = ${len(condition_values) + i + 1}" if value is not None
     else f"{key} IS NULL"], over [enumerate(conditions.items())]. *)
Definition select_clause (nvals : nat) (conditions : dict) : string :=
  join " AND "
    (enum_map (fun i '(key, v) =>
                 if is_none v then key ++ " IS NULL"
                 else key ++ " = $" ++ str_nat (nvals + i + 1))
              conditions).

(** The [for conditions in where_conditions_list] loop (lines 184-193). *)
Fixpoint where_loop (conds : list dict) (where_clauses : list string)
         (condition_values : list value) : list string * list value :=
  match conds with
  | [] => (where_clauses, condition_values)
  | conditions :: rest =>
      match conditions with
      | [] => where_loop rest where_clauses condition_values
      | _ :: _ =>
          where_loop rest
            (where_clauses ++ [select_clause (List.length condition_values) conditions])%list
            (condition_values ++ filter (fun v => negb (is_none v))
                                        (dict_values conditions))%list
      end
  end.

(** [PostgresHandler.build_select_query] (lines 177-201). *)
Definition build_select_query (table_name : string) (find_data : list string)
           (where_conditions_list : list dict) (batch_size : Z)
  : string * list value :=
  let query := "SELECT " ++ join ", " find_data ++ " FROM " ++ table_name in
  match where_conditions_list with
  | [] => (query, [])
  | _ :: _ =>
      let '(where_clauses, condition_values) :=
        where_loop where_conditions_list [] [] in
      match where_clauses with
      | [] => (query, condition_values)
      | _ :: _ =>
          let query := query ++ " WHERE "
                         ++ join " OR " (map (fun c => "(" ++ c ++ ")") where_clauses) in
          if Z.eqb batch_size 0 then (query, condition_values)
          else (query ++ " LIMIT " ++ str_Z batch_size, condition_values)
      end
  end.

(** The statement of one [mass_update] item (lines 83-100). *)
Definition update_stmt (table_name : string) (where_dict update_dict : dict)
  : string * list value :=
  let where_clause :=
    join " AND " (enum_map (fun i k => k ++ " = $" ++ str_nat (i + 1))
                           (dict_keys where_dict)) in
  let update_clause :=
    join ", " (enum_map (fun i k => k ++ " = $" ++ str_nat (List.length where_dict + i + 1))
                        (dict_keys update_dict)) in
  let query := "UPDATE " ++ table_name ++ " SET " ++ update_clause
                 ++ " WHERE " ++ where_clause in
  (query, (dict_values where_dict ++ dict_values update_dict)%list).

(** The statement of [delete_data] (lines 214-222). *)
Definition delete_stmt (table_name : string) (where_conditions : dict)
  : string * list value :=
  let query := "DELETE FROM " ++ table_name in
  let query :=
    match where_conditions with
    | [] => query
    | _ :: _ =>
        query ++ " WHERE "
          ++ join " AND " (enum_map (fun i key => key ++ " = $" ++ str_nat (i + 1))
                                    (dict_keys where_conditions))
    end in
  (query, dict_values where_conditions).

(** [[col for col, value in where_conditions.items() if value is None]] *)
Definition null_cols (where_conditions : dict) : list string :=
  map fst (filter (fun '(_, v) => is_none v) where_conditions).

(** The statement of [count_records] (lines 256-267). *)
Definition count_stmt (table_name : string) (where_conditions : dict)
  : string * list value :=
  let where_clause :=
    join " AND " (enum_map (fun i col => col ++ " = $" ++ str_nat (i + 1))
                           (dict_keys where_conditions)) in
  let query := "SELECT COUNT(*) FROM " ++ table_name in
  let query := if String.eqb where_clause "" then query
               else query ++ " WHERE " ++ where_clause in
  let query := match null_cols where_conditions with
               | [] => query
               | c :: _ => query ++ " OR " ++ c ++ " IS NULL"
               end in
  (query, dict_values where_conditions).

(** The INSERT template of [insert_into_table_bulk] (lines 122-125). *)
Definition insert_query (table_name : string) (columns : list string) : string :=
  let values_placeholder :=
    join ", " (map (fun i => "$" ++ str_nat (i + 1)) (seq 0 (List.length columns))) in
  "INSERT INTO " ++ table_name ++ " (" ++ join ", " columns ++ ")
                            VALUES (" ++ values_placeholder ++ ")".

End Pg.

(** ** Statement builders of the embedded backend ([async_sqlite.py]) *)
Module Sq.

(** One AND-clause of [build_select_query] (lines 215-220). *)
Definition select_clause (conditions : dict) : string :=
  join " AND "
    (map (fun '(key, v) => if is_none v then key ++ " IS NULL" else key ++ " = ?")
         conditions).

(** The [for conditions in where_conditions_list] loop (lines 213-222). *)
Fixpoint where_loop (conds : list dict) (where_clauses : list string)
         (condition_values : list value) : list string * list value :=
  match conds with
  | [] => (where_clauses, condition_values)
  | conditions :: rest =>
      match conditions with
      | [] => where_loop rest where_clauses condition_values
      | _ :: _ =>
          where_loop rest
            (where_clauses ++ [select_clause conditions])%list
            (condition_values ++ filter (fun v => negb (is_none v))
                                        (dict_values conditions))%list
      end
  end.

(** [SqliteHandler.build_select_query] (lines 206-230). *)
Definition build_select_query (table_name : string) (find_data : list string)
           (where_conditions_list : list dict) (batch_size : Z)
  : string * list value :=
  let query := "SELECT " ++ join ", " find_data ++ " FROM " ++ table_name in
  match where_conditions_list with
  | [] => (query, [])
  | _ :: _ =>
      let '(where_clauses, condition_values) :=
        where_loop where_conditions_list [] [] in
      match where_clauses with
      | [] => (query, condition_values)
      | _ :: _ =>
          let query := query ++ " WHERE "
                         ++ join " OR " (map (fun c => "(" ++ c ++ ")") where_clauses) in
          if Z.eqb batch_size 0 then (query, condition_values)
          else (query ++ " LIMIT " ++ str_Z batch_size, condition_values)
      end
  end.

(** The statement of one [mass_update] item (lines 90-114). *)
Definition update_stmt (table_name : string) (where_dict update_dict : dict)
  : string * list value :=
  let where_clause := join " AND " (map (fun k => k ++ " = ?") (dict_keys where_dict)) in
  let where_values := dict_values where_dict in
  let update_clause := join ", " (map (fun k => k ++ " = ?") (dict_keys update_dict)) in
  let update_values := dict_values update_dict in
  let query := "UPDATE " ++ table_name ++ " SET " ++ update_clause
                 ++ " WHERE " ++ where_clause in
  (query, (update_values ++ where_values)%list).

(** The statement of [delete_data] (lines 243-250). *)
Definition delete_stmt (table_name : string) (where_conditions : dict)
  : string * list value :=
  let query := "DELETE FROM " ++ table_name in
  let query :=
    match where_conditions with
    | [] => query
    | _ :: _ =>
        query ++ " WHERE "
          ++ join " AND " (map (fun key => key ++ " = ?") (dict_keys where_conditions))
    end in
  (query, dict_values where_conditions).

(** The statement of [count_records] (lines 288-299). *)
Definition count_stmt (table_name : string) (where_conditions : dict)
  : string * list value :=
  let where_clause :=
    join " AND " (map (fun col => col ++ " = ?") (dict_keys where_conditions)) in
  let query := "SELECT COUNT(*) FROM " ++ table_name in
  let query := if String.eqb where_clause "" then query
               else query ++ " WHERE " ++ where_clause in
  let query := match Pg.null_cols where_conditions with
               | [] => query
               | c :: _ => query ++ " OR " ++ c ++ " IS NULL"
               end in
  (query, dict_values where_conditions).

(** The INSERT template of [insert_into_table_bulk] (lines 144-146). *)
Definition insert_query (table_name : string) (columns : list string) : string :=
  let values_placeholder := join ", " (map (fun _ => "?") (seq 0 (List.length columns))) in
  "INSERT INTO " ++ table_name ++ " (" ++ join ", " columns ++ ") VALUES ("
    ++ values_placeholder ++ ")".

End Sq.

(** ** Python [range] and slicing, used by the batch loops *)

(** [range(i, stop, step)] for a positive [step], with [fuel] bounding the
    number of elements. *)
Fixpoint range_up (fuel : nat) (i stop step : nat) : list nat :=
  match fuel with
  | O => []
  | S f => if Nat.ltb i stop then i :: range_up f (i + step) stop step else []
  end.

(** Python exceptions raised by the modelled code. *)
Inductive exn :=
| DbError (msg : string)          (* raised by the driver: asyncpg / sqlite3 *)
| AttributeError (name : string)
| KeyError (key : string)
| ValueError (msg : string).

(** A lower-case hexadecimal digit, as in Python's [\xhh] escapes. *)
Definition hex_digit (n : nat) : ascii :=
  ascii_of_nat (if Nat.ltb n 10 then 48 + n else 87 + n).

(** The escaped characters of [repr(s)] with quote character [q]: the quote
    and the backslash get a backslash, tab, newline and carriage return
    their short escapes, the other control characters and DEL a [\xhh]
    escape. Bytes above 127 (the UTF-8 encoding of non-ASCII characters)
    are copied, as [repr] does for printable non-ASCII characters. *)
Fixpoint repr_body (q : ascii) (s : string) : string :=
  match s with
  | EmptyString => EmptyString
  | String c r =>
      let n := nat_of_ascii c in
      let bs := ascii_of_nat 92 in
      let e :=
        if Ascii.eqb c q || Ascii.eqb c bs then String bs (String c EmptyString)
        else if Nat.eqb n 9 then String bs (String "t" EmptyString)
        else if Nat.eqb n 10 then String bs (String "n" EmptyString)
        else if Nat.eqb n 13 then String bs (String "r" EmptyString)
        else if Nat.ltb n 32 || Nat.eqb n 127 then
          String bs (String "x" (String (hex_digit (n / 16))
                                        (String (hex_digit (n mod 16)) EmptyString)))
        else String c EmptyString in
      e ++ repr_body q r
  end.

Definition has_char (c : ascii) (s : string) : bool :=
  existsb (Ascii.eqb c) (list_ascii_of_string s).

(** [repr(s)] for a Python [str]: double quotes when [s] contains a single
    quote and no double quote, single quotes otherwise. *)
Definition py_repr (s : string) : string :=
  let dq := ascii_of_nat 34 in
  let q := if has_char "'" s && negb (has_char dq s) then dq else "'"%char in
  String q (repr_body q s ++ String q EmptyString).

(** [str(e)]; [str(KeyError(k))] is [repr(k)]. *)
Definition str_exn (e : exn) : string :=
  match e with
  | DbError m => m
  | AttributeError n => "'sqlite3.Cursor' object has no attribute '" ++ n ++ "'"
  | KeyError k => py_repr k
  | ValueError m => m
  end.

(** [str(v)] for a scalar value, as an f-string renders it. *)
Definition str_value (v : value) : string :=
  match v with
  | VNull => "None"
  | VInt z => str_Z z
  | VStr s => s
  end.

(** [range(0, stop, step)]: a zero step raises, a negative one is empty. *)
Definition py_range0 (stop : nat) (step : Z) : exn + list nat :=
  if Z.eqb step 0 then inl (ValueError "range() arg 3 must not be zero")
  else if Z.ltb step 0 then inr []
  else inr (range_up stop 0 stop (Z.to_nat step)).

(** [l[i:i + n]] for non-negative [i] and [n]. *)
Definition slice {A} (l : list A) (i n : nat) : list A := firstn n (skipn i l).

(** The chunks [data[i:i + batch_size] for i in range(0, len(data), batch_size)]. *)
Definition chunks {A} (l : list A) (batch_size : nat) : list (list A) :=
  map (fun i => slice l i batch_size)
      (range_up (List.length l) 0 (List.length l) batch_size).

(** ** Python dict construction *)

(** [d[k] = v]: updates the entry in place, or appends a new key. *)
Fixpoint dict_set (d : dict) (k : string) (v : value) : dict :=
  match d with
  | [] => [(k, v)]
  | (k', v') :: d' => if String.eqb k k' then (k', v) :: d' else (k', v') :: dict_set d' k v
  end.

(** [dict(pairs)] *)
Definition dict_of_pairs (pairs : list (string * value)) : dict :=
  fold_left (fun d '(k, v) => dict_set d k v) pairs [].

(** [zip(a, b)] *)
Fixpoint zip {A B} (a : list A) (b : list B) : list (A * B) :=
  match a, b with
  | x :: xs, y :: ys => (x, y) :: zip xs ys
  | _, _ => []
  end.

(** ** The driver, the handler state and the operation monad *)

(** A result row as the engine returns it: column names and values in the
    engine's column order. *)
Definition row := list (string * value).

(** What the external driver does with one statement and one parameter
    tuple: it returns rows (empty for non-SELECT statements) or fails. *)
Inductive dres :=
| DOk (rows : list row)
| DFail (msg : string).

Definition driver := string -> list value -> dres.

(** Calls issued to the driver, in order. *)
Inductive call :=
| Execute (q : string) (ps : list value)
| ExecuteMany (q : string) (pss : list (list value))
| Fetch (q : string) (ps : list value)
| FetchVal (q : string) (ps : list value)
| Commit.

Inductive level := Info | Error.

(** The handler object: [self.pool is not None] / [self.connection is not
    None] as [connected], plus the observable effects. *)
Record st := mkst {
  connected : bool;
  calls : list call;
  log : list (level * string)
}.

Inductive outcome (A : Type) :=
| Ok (a : A)
| Raise (e : exn).
Arguments Ok {A} a.
Arguments Raise {A} e.

Definition M (A : Type) := st -> outcome A * st.

Definition ret {A} (a : A) : M A := fun s => (Ok a, s).
Definition raise {A} (e : exn) : M A := fun s => (Raise e, s).
Definition bind {A B} (m : M A) (k : A -> M B) : M B :=
  fun s => match m s with
           | (Ok a, s') => k a s'
           | (Raise e, s') => (Raise e, s')
           end.

Notation "x <- m ;; k" := (bind m (fun x => k))
  (at level 61, m at next level, right associativity).
Notation "m ;; k" := (bind m (fun _ => k))
  (at level 61, right associativity).

(** [try: m except Exception as e: h(e)] *)
Definition try_except {A} (m : M A) (h : exn -> M A) : M A :=
  fun s => match m s with
           | (Raise e, s') => h e s'
           | r => r
           end.

(** [try: m finally: fin] *)
Definition try_finally {A} (m : M A) (fin : M unit) : M A :=
  fun s => match m s with
           | (r, s') => match fin s' with
                        | (Ok _, s'') => (r, s'')
                        | (Raise e, s'') => (Raise e, s'')
                        end
           end.

(** [for x in l: f(x)] *)
Fixpoint mfor {A} (l : list A) (f : A -> M unit) : M unit :=
  match l with
  | [] => ret tt
  | x :: xs => f x ;; mfor xs f
  end.

(** [[f(x) for x in l]] with an effectful [f]. *)
Fixpoint mmap {A B} (f : A -> M B) (l : list A) : M (list B) :=
  match l with
  | [] => ret []
  | x :: xs => y <- f x ;; ys <- mmap f xs ;; ret (y :: ys)
  end.

Definition log_msg (lv : level) (msg : string) : M unit :=
  fun s => (Ok tt, mkst (connected s) (calls s) (log s ++ [(lv, msg)])%list).

(** [connect()]: establishes the handle when absent (establishment itself is
    the external driver's and is taken to succeed). *)
Definition connect : M unit :=
  fun s => (Ok tt, mkst true (calls s) (log s)).

(** [close()]: releases the handle and resets it to [None]. *)
Definition close : M unit :=
  fun s => (Ok tt, mkst false (calls s) (log s)).

Definition record_call (c : call) : M unit :=
  fun s => (Ok tt, mkst (connected s) (calls s ++ [c])%list (log s)).

(** [d[k]] *)
Fixpoint dict_get (d : dict) (k : string) : M value :=
  match d with
  | [] => raise (KeyError k)
  | (k', v) :: d' => if String.eqb k k' then ret v else dict_get d' k
  end.

(** Python values returned by the public operations. *)
Inductive pyval :=
| PNone
| PStr (s : string)
| PVal (v : value)
| PRows (rs : list dict).

(** [table_info]: [name_table], optional [primary_key], [fields]. *)
Record table_spec := {
  name_table : string;
  primary_key : option (string * string * string);
  fields : list (string * string)
}.

(** One item of [data_list] for [mass_update]. *)
Record update_spec := {
  where_ : dict;
  update : dict
}.

(** The [where_conditions] argument of [count_records], which is checked
    with [isinstance(where_conditions, dict)]. *)
Inductive cond_arg :=
| ADict (d : dict)
| AOther.

(** [s.rstrip(',')] *)
Definition rstrip_comma (s : string) : string :=
  let fix drop (l : list ascii) :=
    match l with
    | c :: l' => if Ascii.eqb c "," then drop l' else l
    | [] => []
    end in
  string_of_list_ascii (rev (drop (rev (list_ascii_of_string s)))).

(** The CREATE TABLE text of [create_tables] (both backends). *)
Definition create_query (ti : table_spec) : string :=
  let query := "CREATE TABLE IF NOT EXISTS " ++ name_table ti ++ " (" in
  let query := match primary_key ti with
               | Some (a, b, c) => query ++ a ++ " " ++ b ++ " " ++ c ++ ","
               | None => query
               end in
  let query := fold_left (fun q '(field_name, field_type) =>
                            q ++ field_name ++ " " ++ field_type ++ ",")
                         (fields ti) query in
  rstrip_comma query ++ ")".

Section Driver.
Variable drv : driver.

(** [conn.execute(query, *args)] / [cursor.execute(query, args)] *)
Definition execute (q : string) (ps : list value) : M (list row) :=
  record_call (Execute q ps) ;;
  match drv q ps with
  | DOk rows => ret rows
  | DFail m => raise (DbError m)
  end.

(** [conn.fetch(query, *args)] *)
Definition fetch (q : string) (ps : list value) : M (list row) :=
  record_call (Fetch q ps) ;;
  match drv q ps with
  | DOk rows => ret rows
  | DFail m => raise (DbError m)
  end.

(** [conn.fetchval(query, *args)]: first column of the first row, [None]
    when there is no row. *)
Definition fetchval (q : string) (ps : list value) : M value :=
  record_call (FetchVal q ps) ;;
  match drv q ps with
  | DOk (r :: _) => match r with (_, v) :: _ => ret v | [] => ret VNull end
  | DOk [] => ret VNull
  | DFail m => raise (DbError m)
  end.

Fixpoint run_many (q : string) (pss : list (list value)) : M unit :=
  match pss with
  | [] => ret tt
  | ps :: rest =>
      match drv q ps with
      | DOk _ => run_many q rest
      | DFail m => raise (DbError m)
      end
  end.

(** [conn.executemany(query, values)]: one multi-row call. *)
Definition executemany (q : string) (pss : list (list value)) : M unit :=
  record_call (ExecuteMany q pss) ;; run_many q pss.

End Driver.

(** ** [PostgresHandler] *)
Module PgHandler.
Section Ops.
Variable drv : driver.

(** [create_tables] (lines 24-59). *)
Definition create_tables (table_info : table_spec) : M pyval :=
  connect ;;
  try_except
    (let query := create_query table_info in
     execute drv query [] ;;
     log_msg Info ("Table '" ++ name_table table_info
                     ++ "' successfully created or already exists.") ;;
     ret (PStr "ok"))
    (fun e => log_msg Error ("Error creating table: " ++ str_exn e) ;;
              ret (PStr ("Error creating table: " ++ str_exn e))).

(** One item of the [mass_update] loop (lines 83-106). *)
Definition update_one (table_name : string) (data : update_spec) : M unit :=
  let '(query, data_values) := Pg.update_stmt table_name (where_ data) (update data) in
  try_except (execute drv query data_values ;; ret tt)
             (fun e => log_msg Error ("Error updating records: " ++ str_exn e)).

(** [mass_update] (lines 61-106). *)
Definition mass_update (table_name : string) (data_list : list update_spec)
           (batch_size : Z) : M pyval :=
  connect ;;
  match py_range0 (List.length data_list) batch_size with
  | inl e => raise e
  | inr idxs =>
      mfor idxs (fun i =>
        let batch := slice data_list i (Z.to_nat batch_size) in
        mfor batch (update_one table_name))
  end ;;
  ret PNone.

(** [insert_into_table_bulk] (lines 108-136). *)
Definition insert_into_table_bulk (table_name : string) (records : list dict)
           (batch_size : Z) : M pyval :=
  connect ;;
  try_except
    (let columns := match records with [] => [] | r :: _ => dict_keys r end in
     let query := Pg.insert_query table_name columns in
     match py_range0 (List.length records) batch_size with
     | inl e => raise e
     | inr idxs =>
         mfor idxs (fun i =>
           let batch := slice records i (Z.to_nat batch_size) in
           values <- mmap (fun record => mmap (dict_get record) columns) batch ;;
           executemany drv query values)
     end ;;
     log_msg Info (str_nat (List.length records) ++ " records added to the table "
                     ++ table_name) ;;
     ret (PStr "ok"))
    (fun e => log_msg Error ("Error adding records: " ++ str_exn e) ;;
              ret (PStr ("Error adding records: " ++ str_exn e))).

(** [select_data] (lines 138-175); [find_data] and [where_conditions] are
    the optional keys of [query_params]. *)
Definition select_data (table_name : string) (find_data_opt : option (list string))
           (where_opt : option (list dict)) (batch_size : Z) : M pyval :=
  connect ;;
  let find_data := match find_data_opt with Some f => f | None => ["*"] end in
  let where_conditions_list := match where_opt with Some w => w | None => [] end in
  let '(query, condition_values) :=
    Pg.build_select_query table_name find_data where_conditions_list batch_size in
  try_finally
    (try_except
       (result <- fetch drv query condition_values ;;
        ret (PRows (map dict_of_pairs result)))
       (fun e => log_msg Error ("Error executing SELECT query: " ++ str_exn e) ;;
                 raise e))
    close.

(** [delete_data] (lines 203-227). *)
Definition delete_data (table_name : string) (where_conditions : dict) : M pyval :=
  try_except
    (connect ;;
     let '(query, vals) := Pg.delete_stmt table_name where_conditions in
     execute drv query vals ;;
     log_msg Info ("Records in the table '" ++ table_name ++ "' successfully deleted.") ;;
     ret (PStr "ok"))
    (fun e => log_msg Error ("Error deleting data: " ++ str_exn e) ;;
              ret (PStr ("Error deleting data: " ++ str_exn e))).

(** [delete_all_data_from_table] (lines 229-246); the status string that
    asyncpg returns is left out of the logged message. *)
Definition delete_all_data_from_table (table_name : string) : M pyval :=
  connect ;;
  try_except
    (execute drv ("DELETE FROM " ++ table_name) [] ;;
     log_msg Info ("records deleted from the table " ++ table_name) ;;
     ret (PStr "ok"))
    (fun e => log_msg Error ("Error deleting records: " ++ str_exn e) ;;
              ret (PStr "error")).

(** [count_records] (lines 248-273). *)
Definition count_records (table_name : string) (where_conditions : cond_arg) : M pyval :=
  match where_conditions with
  | AOther => raise (ValueError "Invalid parameters")
  | ADict wc =>
      if String.eqb table_name "" then raise (ValueError "Invalid parameters")
      else
        connect ;;
        try_except
          (let '(query, vals) := Pg.count_stmt table_name wc in
           count <- fetchval drv query vals ;;
           log_msg Info (str_value count ++ " results in the database for the specified query") ;;
           ret (PVal count))
          (fun e => log_msg Error ("Error counting records: " ++ str_exn e) ;;
                    raise e)
  end.

End Ops.
End PgHandler.

(** ** [SqliteHandler] *)
Module SqliteHandler.

(** The attributes of a [sqlite3.Cursor] (Python standard library). *)
Definition cursor_attrs : list string :=
  ["execute"; "executemany"; "executescript"; "fetchone"; "fetchmany";
   "fetchall"; "close"; "setinputsizes"; "setoutputsize"; "arraysize";
   "connection"; "description"; "lastrowid"; "rowcount"; "row_factory"].

(** Attribute lookup on a cursor: [AttributeError] for a missing name. *)
Definition cursor_getattr (name : string) : M unit :=
  if existsb (String.eqb name) cursor_attrs then ret tt else raise (AttributeError name).

(** [self.connection.commit()]. It is recorded as a call and taken to
    succeed: a failing commit (a locked database, say) is not modelled, so
    the properties below that concern what follows a commit on this
    backend are stated up to the commit. *)
Definition commit : M unit := record_call Commit.

Section Ops.
Variable drv : driver.

(** [create_tables] (lines 24-64). *)
Definition create_tables (table_info : table_spec) : M pyval :=
  connect ;;
  try_finally
    (try_except
       (let query := create_query table_info in
        execute drv query [] ;;
        commit ;;
        log_msg Info ("Table '" ++ name_table table_info
                        ++ "' successfully created or already exists.") ;;
        ret (PStr "ok"))
       (fun e => log_msg Error ("Error creating table: " ++ str_exn e) ;;
                 ret (PStr ("Error creating table: " ++ str_exn e))))
    close.

(** One item of the [mass_update] loop (lines 90-121); the two [print]
    calls write to stdout only and are left out. *)
Definition update_one (table_name : string) (data : update_spec) : M unit :=
  let '(query, data_values) := Sq.update_stmt table_name (where_ data) (update data) in
  try_except (execute drv query data_values ;; ret tt)
             (fun e => log_msg Error ("Error updating records: " ++ str_exn e)).

(** [mass_update] (lines 66-127). *)
Definition mass_update (table_name : string) (data_list : list update_spec)
           (batch_size : Z) : M pyval :=
  connect ;;
  try_finally
    (try_except
       (match py_range0 (List.length data_list) batch_size with
        | inl e => raise e
        | inr idxs =>
            mfor idxs (fun i =>
              let batch := slice data_list i (Z.to_nat batch_size) in
              mfor batch (update_one table_name))
        end ;;
        commit)
       (fun e => log_msg Error ("Error updating records: " ++ str_exn e)))
    close ;;
  ret PNone.

(** [insert_into_table_bulk] (lines 129-160). *)
Definition insert_into_table_bulk (table_name : string) (records : list dict)
           (batch_size : Z) : M pyval :=
  connect ;;
  try_finally
    (try_except
       (let columns := match records with [] => [] | r :: _ => dict_keys r end in
        let query := Sq.insert_query table_name columns in
        match py_range0 (List.length records) batch_size with
        | inl e => raise e
        | inr idxs =>
            mfor idxs (fun i =>
              let batch := slice records i (Z.to_nat batch_size) in
              values <- mmap (fun record => mmap (dict_get record) columns) batch ;;
              executemany drv query values)
        end ;;
        commit ;;
        log_msg Info (str_nat (List.length records) ++ " records added to the table "
                        ++ table_name) ;;
        ret (PStr "ok"))
       (fun e => log_msg Error ("Error adding records: " ++ str_exn e) ;;
                 ret (PStr ("Error adding records: " ++ str_exn e))))
    close.

(** [select_data] (lines 162-204). [cursor.execute(...).fetchall()] gives
    the rows as tuples, so the [isinstance] test of line 193 always holds
    and its [else] branch is not reachable. *)
Definition select_data (table_name : string) (find_data_opt : option (list string))
           (where_opt : option (list dict)) (batch_size : Z) : M pyval :=
  connect ;;
  let find_data := match find_data_opt with Some f => f | None => ["*"] end in
  let where_conditions_list := match where_opt with Some w => w | None => [] end in
  let '(query, condition_values) :=
    Sq.build_select_query table_name find_data where_conditions_list batch_size in
  try_finally
    (try_except
       (rows <- execute drv query condition_values ;;
        let result := map (map snd) rows in
        ret (PRows (map (fun r => dict_of_pairs (zip find_data r)) result)))
       (fun e => log_msg Error ("Error executing SELECT query: " ++ str_exn e) ;;
                 raise e))
    close.

(** [delete_data] (lines 232-258). *)
Definition delete_data (table_name : string) (where_conditions : dict) : M pyval :=
  try_finally
    (try_except
       (connect ;;
        let '(query, vals) := Sq.delete_stmt table_name where_conditions in
        execute drv query vals ;;
        commit ;;
        log_msg Info ("Records in the table '" ++ table_name ++ "' successfully deleted.") ;;
        ret (PStr "ok"))
       (fun e => log_msg Error ("Error deleting data: " ++ str_exn e) ;;
                 ret (PStr ("Error deleting data: " ++ str_exn e))))
    close.

(** [delete_all_data_from_table] (lines 260-278): no [finally] here. *)
Definition delete_all_data_from_table (table_name : string) : M pyval :=
  connect ;;
  try_except
    (execute drv ("DELETE FROM " ++ table_name) [] ;;
     commit ;;
     log_msg Info ("All records deleted from the table " ++ table_name) ;;
     ret (PStr "ok"))
    (fun e => log_msg Error ("Error deleting records: " ++ str_exn e) ;;
              ret (PStr "error")).

(** [count_records] (lines 280-307):
    [cursor.execute(query, ...).fetchval()] looks up [fetchval] on the
    cursor that [execute] returns. *)
Definition count_records (table_name : string) (where_conditions : cond_arg) : M pyval :=
  match where_conditions with
  | AOther => raise (ValueError "Invalid parameters")
  | ADict wc =>
      if String.eqb table_name "" then raise (ValueError "Invalid parameters")
      else
        connect ;;
        try_finally
          (try_except
             (let '(query, vals) := Sq.count_stmt table_name wc in
              rows <- execute drv query vals ;;
              cursor_getattr "fetchval" ;;
              let count := match rows with
                           | ((_, v) :: _) :: _ => v
                           | _ => VNull
                           end in
              log_msg Info (str_value count ++ " results in the database for the specified query") ;;
              ret (PVal count))
             (fun e => log_msg Error ("Error counting records: " ++ str_exn e) ;;
                       raise e))
          close
  end.

End Ops.
End SqliteHandler.

(** ** Reading the numbered placeholders back from a statement *)

Definition is_digit (c : ascii) : bool :=
  Nat.leb 48 (nat_of_ascii c) && Nat.leb (nat_of_ascii c) 57.

Definition flush (cur : option string) : list string :=
  match cur with
  | Some (String c r) => [String c r]
  | _ => []
  end.

(** Left-to-right scan: [cur] is [Some digits] while reading [$digits]. *)
Fixpoint scan (cur : option string) (s : string) : list string :=
  match s with
  | EmptyString => flush cur
  | String c r =>
      match cur with
      | Some acc =>
          if is_digit c then scan (Some (acc ++ String c "")) r
          else (flush cur ++ (if Ascii.eqb c "$" then scan (Some "") r else scan None r))%list
      | None => if Ascii.eqb c "$" then scan (Some "") r else scan None r
      end
  end.

(** The digit strings of the [$i] placeholders of [q], left to right. *)
Definition placeholders (q : string) : list string := scan None q.

(** Identifiers (table and column names) contain no [$]. *)
Fixpoint dollar_free (s : string) : bool :=
  match s with
  | EmptyString => true
  | String c r => negb (Ascii.eqb c "$") && dollar_free r
  end.

Definition nd_start (s : string) : bool :=
  match s with
  | EmptyString => true
  | String c _ => negb (is_digit c)
  end.

Fixpoint all_digits (s : string) : bool :=
  match s with
  | EmptyString => true
  | String c r => is_digit c && all_digits r
  end.

(** [s] contributes exactly the placeholders [L] wherever it is placed
    before a text that does not start with a digit. *)
Definition phs (s : string) (L : list string) : Prop :=
  forall t, nd_start t = true -> scan None (s ++ t) = (L ++ scan None t)%list.

(** A Condition whose column names contain no [$] and whose values are
    all non-null. *)
Definition plain_condition (c : dict) : bool :=
  forallb (fun '(k, v) => dollar_free k && negb (is_none v)) c.

(** [d.get(k)] as a pure lookup, used to state what [record[col]] yields. *)
Fixpoint dict_find (d : dict) (k : string) : option value :=
  match d with
  | [] => None
  | (k', v) :: d' => if String.eqb k k' then Some v else dict_find d' k
  end.


(** At least one Condition of the ConditionSet is non-empty. *)
Definition has_nonempty_condition (conds : list dict) : bool :=
  existsb (fun c => match c with [] => false | _ :: _ => true end) conds.

(** How the pooled select predicate may render the column [kv] of a
    Condition: [key IS NULL] for a null value, [key = $n] otherwise. *)
Definition pg_select_piece (kv : string * value) (p : string) : Prop :=
  if is_none (snd kv) then p = fst kv ++ " IS NULL"
  else exists n, p = fst kv ++ " = $" ++ str_nat n.

(** The same on the embedded backend: [key IS NULL] or [key = ?]. *)
Definition sq_select_piece (kv : string * value) (p : string) : Prop :=
  if is_none (snd kv) then p = fst kv ++ " IS NULL" else p = fst kv ++ " = ?".

(** [clause] joins with [AND] one rendering, by [piece], of each column of
    [c], in order. *)
Definition renders (piece : string * value -> string -> Prop) (c : dict) (clause : string)
  : Prop :=
  exists pieces, clause = join " AND " pieces /\ Forall2 piece c pieces.


(** A driver whose every query returns the one row
    [(id=1, name='John', age=25)] of a [users] table. *)
Definition users_driver : driver :=
  fun _ _ => DOk [[("id", VInt 1); ("name", VStr "John"); ("age", VInt 25)]].


(** A fresh handler: no connection, no calls, empty log. *)
Definition st0 : st := mkst false [] [].

(** ** Definitions used by the further properties *)

(** The computation [m] leaves the connection handle as it found it. *)
Definition keeps_conn {A} (m : M A) : Prop :=
  forall s, connected (snd (m s)) = connected s.




(** The last character of [s] is a comma. *)
Definition ends_with_comma (s : string) : bool :=
  match rev (list_ascii_of_string s) with
  | c :: _ => Ascii.eqb c ","
  | [] => false
  end.

(** The number of [?] characters in a statement text. *)
Fixpoint qmarks (s : string) : nat :=
  match s with
  | EmptyString => 0
  | String c s' => (if Ascii.eqb c "?"%char then 1 else 0) + qmarks s'
  end.

(** No column name of the dict contains a [?]. *)
Definition qfree_keys (d : dict) : Prop := Forall (fun kv => qmarks (fst kv) = 0) d.

(** The Condition is non-empty. *)
Definition nonempty_cond (c : dict) : bool := match c with [] => false | _ :: _ => true end.

(** The distinct names of [keys], in order of first appearance. *)
Definition first_occurrences (keys : list string) : list string :=
  fold_left (fun acc k => if existsb (String.eqb k) acc then acc else (acc ++ [k])%list) keys [].

(** * Proofs *)

(** ** Strings and placeholders *)

Lemma str_app_assoc (a b c : string) : (a ++ b) ++ c = a ++ (b ++ c).
Proof. induction a as [|x a IH]; simpl; [reflexivity | now rewrite IH]. Qed.

Lemma str_app_nil_r (a : string) : a ++ "" = a.
Proof. induction a as [|x a IH]; simpl; [reflexivity | now rewrite IH]. Qed.

Lemma dollar_free_app a b : dollar_free (a ++ b) = dollar_free a && dollar_free b.
Proof.
  induction a as [|x a IH]; simpl; [reflexivity|].
  now rewrite IH, andb_assoc.
Qed.

Lemma dollar_free_join sep l :
  dollar_free sep = true -> forallb dollar_free l = true -> dollar_free (join sep l) = true.
Proof.
  intros Hs. induction l as [|x l IH]; simpl; [reflexivity|].
  intros Hl. apply andb_prop in Hl as [Hx Hl].
  destruct l as [|y l]; [exact Hx|].
  rewrite !dollar_free_app, Hx, Hs, IH by exact Hl. reflexivity.
Qed.

Lemma all_digits_dollar_free s : all_digits s = true -> dollar_free s = true.
Proof.
  induction s as [|c s IH]; simpl; [reflexivity|].
  intros H. apply andb_prop in H as [Hc Hs].
  rewrite IH by exact Hs. rewrite andb_true_r.
  destruct (Ascii.eqb c "$") eqn:E; [|reflexivity].
  apply Ascii.eqb_eq in E. subst c. discriminate Hc.
Qed.

Lemma uint_digits d : all_digits (NilEmpty.string_of_uint d) = true.
Proof. induction d; simpl; auto. Qed.

Lemma str_nat_digits n : all_digits (str_nat n) = true /\ str_nat n <> "".
Proof.
  unfold str_nat. destruct (Nat.to_uint n) as [| d | d | d | d | d | d | d | d | d | d];
    simpl; split; try discriminate; try reflexivity; apply uint_digits.
Qed.

Lemma str_Z_dollar_free z : dollar_free (str_Z z) = true.
Proof.
  unfold str_Z, NilZero.string_of_int, NilZero.string_of_uint.
  destruct (Z.to_int z) as [d|d]; [|simpl];
  destruct d; try reflexivity; apply all_digits_dollar_free, uint_digits.
Qed.

Lemma scan_dollar_free s t : dollar_free s = true -> scan None (s ++ t) = scan None t.
Proof.
  induction s as [|c r IH]; simpl; intros H; [reflexivity|].
  apply andb_prop in H as [H1 H2]. apply negb_true_iff in H1.
  rewrite H1. auto.
Qed.

Lemma scan_digits d acc t :
  all_digits d = true -> scan (Some acc) (d ++ t) = scan (Some (acc ++ d)) t.
Proof.
  revert acc. induction d as [|c r IH]; intros acc H; simpl.
  - now rewrite str_app_nil_r.
  - apply andb_prop in H as [H1 H2]. rewrite H1, IH by exact H2.
    now rewrite str_app_assoc.
Qed.

Lemma scan_stop acc t :
  nd_start t = true -> scan (Some acc) t = (flush (Some acc) ++ scan None t)%list.
Proof.
  destruct t as [|c r]; simpl; intros H.
  - now rewrite app_nil_r.
  - apply negb_true_iff in H. now rewrite H.
Qed.

Lemma placeholders_of_phs s L : phs s L -> placeholders s = L.
Proof.
  intros H. unfold placeholders.
  rewrite <- (str_app_nil_r s), H by reflexivity. apply app_nil_r.
Qed.

Lemma phs_df s : dollar_free s = true -> phs s [].
Proof. intros H t _. now rewrite scan_dollar_free. Qed.

Lemma phs_pre s1 s2 L : dollar_free s1 = true -> phs s2 L -> phs (s1 ++ s2) L.
Proof. intros H1 H2 t Ht. rewrite str_app_assoc, scan_dollar_free by exact H1. auto. Qed.

Lemma nd_start_app s t : nd_start s = true -> nd_start t = true -> nd_start (s ++ t) = true.
Proof. destruct s; simpl; auto. Qed.

Lemma phs_app s1 s2 L1 L2 :
  phs s1 L1 -> phs s2 L2 -> nd_start s2 = true -> phs (s1 ++ s2) (L1 ++ L2).
Proof.
  intros H1 H2 Hs t Ht.
  rewrite str_app_assoc, H1 by (apply nd_start_app; auto).
  rewrite H2 by exact Ht. apply app_assoc.
Qed.

Lemma phs_ph n : phs ("$" ++ str_nat n) [str_nat n].
Proof.
  intros t Ht. destruct (str_nat_digits n) as [Hd Hne].
  change (("$" ++ str_nat n) ++ t) with (String "$" (str_nat n ++ t)).
  change (scan None (String "$" (str_nat n ++ t))) with (scan (Some "") (str_nat n ++ t)).
  rewrite scan_digits by exact Hd. rewrite scan_stop by exact Ht.
  simpl. destruct (str_nat n); [congruence | reflexivity].
Qed.

Lemma phs_eq_ph k n : dollar_free k = true -> phs (k ++ " = $" ++ str_nat n) [str_nat n].
Proof.
  intros Hk. apply phs_pre; [exact Hk|].
  change (" = $" ++ str_nat n) with (" = " ++ ("$" ++ str_nat n)).
  apply phs_pre; [reflexivity | apply phs_ph].
Qed.

Lemma join_cons2 sep x y l : join sep (x :: y :: l) = x ++ sep ++ join sep (y :: l).
Proof. reflexivity. Qed.

Lemma phs_join sep ps Ls :
  dollar_free sep = true -> (forall t, nd_start (sep ++ t) = true) ->
  Forall2 phs ps Ls -> phs (join sep ps) (List.concat Ls).
Proof.
  intros Hs Hn HF. induction HF as [|p L ps' Ls' Hp HF' IH].
  - apply phs_df. reflexivity.
  - destruct HF' as [|p' L' ps'' Ls'' Hp' HF''].
    + simpl. now rewrite app_nil_r.
    + rewrite join_cons2. simpl List.concat.
      apply phs_app; [exact Hp | apply phs_pre; [exact Hs | exact IH] | apply Hn].
Qed.

Lemma concat_singles {A B} (f : A -> B) l : List.concat (map (fun j => [f j]) l) = map f l.
Proof. induction l as [|x l IH]; simpl; [reflexivity | now rewrite IH]. Qed.

Lemma map_seq_shift g o n : forall i,
  (forall j, g j = j + o) -> map g (seq i n) = seq (i + o) n.
Proof.
  induction n as [|n IH]; intros i Hg; simpl; [reflexivity|].
  rewrite Hg, IH by exact Hg. reflexivity.
Qed.

Lemma phs_enum g keys : forall i,
  forallb dollar_free keys = true ->
  Forall2 phs (enum_map_from (fun j k => k ++ " = $" ++ str_nat (g j)) i keys)
              (map (fun j => [str_nat (g j)]) (seq i (List.length keys))).
Proof.
  induction keys as [|k keys IH]; intros i H; simpl; constructor.
  - apply andb_prop in H as [Hk _]. now apply phs_eq_ph.
  - apply andb_prop in H as [_ Hr]. now apply IH.
Qed.

(** The AND-join of [col = $i] pieces numbered [o + 1, o + 2, ...]. *)
Lemma phs_and_join sep o keys :
  dollar_free sep = true -> (forall t, nd_start (sep ++ t) = true) ->
  forallb dollar_free keys = true ->
  phs (join sep (enum_map (fun i k => k ++ " = $" ++ str_nat (o + i + 1)) keys))
      (map str_nat (seq (o + 1) (List.length keys))).
Proof.
  intros Hs Hn Hk.
  replace (map str_nat (seq (o + 1) (List.length keys)))
    with (List.concat (map (fun j => [str_nat (o + j + 1)]) (seq 0 (List.length keys)))).
  - apply phs_join; [exact Hs | exact Hn | now apply phs_enum].
  - rewrite concat_singles.
    transitivity (map str_nat (map (fun j => o + j + 1) (seq 0 (List.length keys)))).
    + now rewrite map_map.
    + f_equal. apply (map_seq_shift _ (o + 1)). intros; lia.
Qed.

Lemma phs_select_pieces nv c : forall i,
  plain_condition c = true ->
  Forall2 phs
    (enum_map_from (fun i '(key, v) =>
                      if is_none v then key ++ " IS NULL"
                      else key ++ " = $" ++ str_nat (nv + i + 1)) i c)
    (map (fun j => [str_nat (nv + j + 1)]) (seq i (List.length c))).
Proof.
  induction c as [|[k v] c IH]; intros i H; simpl; constructor;
    simpl in H; apply andb_prop in H as [Hkv Hr]; apply andb_prop in Hkv as [Hk Hv].
  - apply negb_true_iff in Hv. rewrite Hv. now apply phs_eq_ph.
  - now apply IH.
Qed.

Lemma phs_select_clause nv c :
  plain_condition c = true ->
  phs (Pg.select_clause nv c) (map str_nat (seq (nv + 1) (List.length c))).
Proof.
  intros H. unfold Pg.select_clause, enum_map.
  replace (map str_nat (seq (nv + 1) (List.length c)))
    with (List.concat (map (fun j => [str_nat (nv + j + 1)]) (seq 0 (List.length c)))).
  - apply phs_join; [reflexivity | intros; reflexivity | now apply phs_select_pieces].
  - rewrite concat_singles.
    transitivity (map str_nat (map (fun j => nv + j + 1) (seq 0 (List.length c)))).
    + now rewrite map_map.
    + f_equal. apply (map_seq_shift _ (nv + 1)). intros; lia.
Qed.

Lemma phs_paren c L : phs c L -> phs ("(" ++ c ++ ")") L.
Proof.
  intros H. apply phs_pre; [reflexivity|].
  rewrite <- (app_nil_r L). apply phs_app; [exact H | apply phs_df | ]; reflexivity.
Qed.

Lemma filter_plain c :
  plain_condition c = true ->
  filter (fun v => negb (is_none v)) (dict_values c) = dict_values c.
Proof.
  induction c as [|[k v] c IH]; simpl; [reflexivity|].
  intros H. apply andb_prop in H as [Hkv Hr]. apply andb_prop in Hkv as [_ Hv].
  rewrite Hv, IH by exact Hr. reflexivity.
Qed.

Lemma pg_where_loop_phs conds : forall cl vals Lcl,
  Forall (fun c => plain_condition c = true) conds ->
  Forall2 phs (map (fun c => "(" ++ c ++ ")") cl) Lcl ->
  List.concat Lcl = map str_nat (seq 1 (List.length vals)) ->
  exists Lcl',
    Forall2 phs (map (fun c => "(" ++ c ++ ")") (fst (Pg.where_loop conds cl vals))) Lcl' /\
    List.concat Lcl' = map str_nat (seq 1 (List.length (snd (Pg.where_loop conds cl vals)))).
Proof.
  induction conds as [|c conds IH]; intros cl vals Lcl Hc HF HL; simpl.
  - exists Lcl. auto.
  - inversion Hc as [|? ? Hc1 Hcs]; subst.
    destruct c as [|p c'].
    + now apply (IH cl vals Lcl).
    + apply (IH _ _ (Lcl ++ [map str_nat (seq (List.length vals + 1)
                                               (List.length (p :: c')))])%list);
        [exact Hcs | |].
      * rewrite map_app. apply Forall2_app; [exact HF|].
        constructor; [|constructor].
        apply phs_paren, phs_select_clause. exact Hc1.
      * rewrite concat_app, HL. simpl List.concat. rewrite app_nil_r.
        rewrite filter_plain by exact Hc1.
        rewrite length_app. unfold dict_values. rewrite length_map.
        rewrite seq_app, map_app.
        replace (1 + List.length vals) with (List.length vals + 1) by lia.
        reflexivity.
Qed.

Lemma df_select_prefix t find :
  dollar_free t = true -> forallb dollar_free find = true ->
  dollar_free ("SELECT " ++ join ", " find ++ " FROM " ++ t) = true.
Proof.
  intros Ht Hf.
  rewrite !dollar_free_app, Ht, dollar_free_join by (reflexivity || exact Hf).
  reflexivity.
Qed.

Lemma length_dict_keys (d : dict) : List.length (dict_keys d) = List.length d.
Proof. apply length_map. Qed.

Lemma null_cols_dollar_free wc :
  forallb dollar_free (dict_keys wc) = true -> forallb dollar_free (Pg.null_cols wc) = true.
Proof.
  unfold Pg.null_cols. induction wc as [|[k v] wc IH]; simpl; [reflexivity|].
  intros H. apply andb_prop in H as [Hk Hr].
  destruct (is_none v); simpl; rewrite ?Hk; auto.
Qed.

(** Placeholders of the pooled backend's select, for conditions without
    null values. *)
Lemma pg_select_placeholders t find conds bs :
  dollar_free t = true -> forallb dollar_free find = true ->
  Forall (fun c => plain_condition c = true) conds ->
  placeholders (fst (Pg.build_select_query t find conds bs))
  = map str_nat (seq 1 (List.length (snd (Pg.build_select_query t find conds bs)))).
Proof.
  intros Ht Hf Hc. pose proof (df_select_prefix t find Ht Hf) as Hp.
  unfold Pg.build_select_query. destruct conds as [|c cs].
  - cbn [fst snd]. apply placeholders_of_phs, phs_df, Hp.
  - destruct (pg_where_loop_phs (c :: cs) [] [] [] Hc (Forall2_nil _) eq_refl)
      as [L [HF HL]].
    destruct (Pg.where_loop (c :: cs) [] []) as [cl vals]. cbn [fst snd] in HF, HL.
    destruct cl as [|x xs].
    + inversion HF; subst. cbn [fst snd]. rewrite <- HL.
      apply placeholders_of_phs, phs_df, Hp.
    + assert (HW : phs (("SELECT " ++ join ", " find ++ " FROM " ++ t) ++ " WHERE "
                          ++ join " OR " (map (fun c => "(" ++ c ++ ")") (x :: xs)))
                       (List.concat L)).
      { apply phs_pre; [exact Hp|]. apply phs_pre; [reflexivity|].
        apply phs_join; [reflexivity | intros; reflexivity | exact HF]. }
      destruct (Z.eqb bs 0); cbn [fst snd]; rewrite <- HL; apply placeholders_of_phs.
      * exact HW.
      * rewrite <- (app_nil_r (List.concat L)).
        apply phs_app; [exact HW | apply phs_df | reflexivity].
        change (dollar_free (" LIMIT " ++ str_Z bs) = true).
        rewrite dollar_free_app, str_Z_dollar_free. reflexivity.
Qed.

(** Placeholders of the pooled backend's UPDATE: the SET placeholders
    [$w+1 .. $w+u] come first in the text, the WHERE ones [$1 .. $w] last. *)
Lemma pg_update_placeholders t wd ud :
  dollar_free t = true -> forallb dollar_free (dict_keys wd) = true ->
  forallb dollar_free (dict_keys ud) = true ->
  placeholders (fst (Pg.update_stmt t wd ud))
  = map str_nat (seq (List.length wd + 1) (List.length ud) ++ seq 1 (List.length wd)).
Proof.
  intros Ht Hw Hu. unfold Pg.update_stmt. cbn [fst].
  apply placeholders_of_phs. rewrite map_app.
  apply phs_pre; [reflexivity|]. apply phs_pre; [exact Ht|].
  apply phs_pre; [reflexivity|].
  apply phs_app; [| | reflexivity].
  - rewrite <- (length_dict_keys ud).
    apply phs_and_join; [reflexivity | intros; reflexivity | exact Hu].
  - apply phs_pre; [reflexivity|]. rewrite <- (length_dict_keys wd).
    apply (phs_and_join " AND " 0); [reflexivity | intros; reflexivity | exact Hw].
Qed.

Lemma pg_delete_placeholders t wc :
  dollar_free t = true -> forallb dollar_free (dict_keys wc) = true ->
  placeholders (fst (Pg.delete_stmt t wc)) = map str_nat (seq 1 (List.length wc)).
Proof.
  intros Ht Hw. unfold Pg.delete_stmt. cbn [fst].
  apply placeholders_of_phs. destruct wc as [|p wc'].
  - apply phs_df. exact Ht.
  - apply phs_pre; [exact Ht|]. apply phs_pre; [reflexivity|].
    rewrite <- (length_dict_keys (p :: wc')).
    apply (phs_and_join " AND " 0); [reflexivity | intros; reflexivity | exact Hw].
Qed.

Lemma pg_count_placeholders t wc :
  dollar_free t = true -> forallb dollar_free (dict_keys wc) = true ->
  placeholders (fst (Pg.count_stmt t wc)) = map str_nat (seq 1 (List.length wc)).
Proof.
  intros Ht Hw. unfold Pg.count_stmt. cbn [fst].
  assert (HW : phs (join " AND " (enum_map (fun i col => col ++ " = $" ++ str_nat (i + 1))
                                           (dict_keys wc)))
                   (map str_nat (seq 1 (List.length wc)))).
  { rewrite <- (length_dict_keys wc).
    apply (phs_and_join " AND " 0); [reflexivity | intros; reflexivity | exact Hw]. }
  set (W := join " AND " _) in *.
  assert (HQ : phs (if String.eqb W "" then "SELECT COUNT(*) FROM " ++ t
                    else ("SELECT COUNT(*) FROM " ++ t) ++ " WHERE " ++ W)
                   (map str_nat (seq 1 (List.length wc)))).
  { destruct (String.eqb_spec W "") as [E|E].
    - pose proof (placeholders_of_phs _ _ HW) as H0. rewrite E in H0.
      rewrite <- H0. apply phs_df. exact Ht.
    - apply phs_pre; [exact Ht|]. apply phs_pre; [reflexivity | exact HW]. }
  pose proof (null_cols_dollar_free wc Hw) as Hn.
  destruct (Pg.null_cols wc) as [|c cs].
  - apply placeholders_of_phs, HQ.
  - apply placeholders_of_phs. rewrite <- app_nil_r.
    apply phs_app; [exact HQ | apply phs_df | reflexivity].
    simpl in Hn. apply andb_prop in Hn as [Hc _].
    rewrite !dollar_free_app, Hc. reflexivity.
Qed.

(** ** Batching *)

Lemma range_up_concat {A} (l : list A) bs : forall f i,
  1 <= bs -> List.length l - i <= f ->
  List.concat (map (fun j => slice l j bs) (range_up f i (List.length l) bs)) = skipn i l.
Proof.
  induction f as [|f IH]; intros i Hbs Hf; simpl.
  - symmetry. apply skipn_all2. lia.
  - destruct (Nat.ltb_spec i (List.length l)) as [Hi|Hi]; simpl.
    + rewrite IH by lia. unfold slice.
      replace (skipn (i + bs) l) with (skipn bs (skipn i l))
        by (rewrite skipn_skipn; f_equal; lia).
      apply firstn_skipn.
    + symmetry. apply skipn_all2. lia.
Qed.





Lemma bind_ok {A B} (m : M A) (k : A -> M B) s a s1 :
  m s = (Ok a, s1) -> bind m k s = k a s1.
Proof. intros E. unfold bind. now rewrite E. Qed.

(** [for x in l: body(x)] when each body call appends [g x] to the calls,
    keeps the handle and does not raise. *)
Lemma mfor_calls {A} (l : list A) (body : A -> M unit) (g : A -> list call) :
  (forall x s, fst (body x s) = Ok tt /\
               calls (snd (body x s)) = (calls s ++ g x)%list /\
               connected (snd (body x s)) = connected s) ->
  forall s, fst (mfor l body s) = Ok tt /\
            calls (snd (mfor l body s)) = (calls s ++ List.concat (map g l))%list /\
            connected (snd (mfor l body s)) = connected s.
Proof.
  intros Hb. induction l as [|x l IH]; intros s; simpl.
  - now rewrite app_nil_r.
  - unfold bind. destruct (Hb x s) as [H1 [H2 H3]].
    destruct (body x s) as [r s1] eqn:E. simpl in H1, H2, H3. subst r.
    destruct (IH s1) as [I1 [I2 I3]]. repeat split; [exact I1 | | congruence].
    rewrite I2, H2. symmetry. apply app_assoc.
Qed.






Lemma py_range0_pos n bs :
  (1 <= bs)%Z -> py_range0 n bs = inr (range_up n 0 n (Z.to_nat bs)).
Proof.
  intros H. unfold py_range0.
  rewrite (proj2 (Z.eqb_neq bs 0)) by lia. rewrite (proj2 (Z.ltb_ge bs 0)) by lia.
  reflexivity.
Qed.

Lemma concat_chunks {A} (l : list A) bs :
  1 <= bs -> List.concat (chunks l bs) = l.
Proof.
  intros H. unfold chunks. rewrite range_up_concat by lia. reflexivity.
Qed.

(** The two-level update loop [for batch in chunks: for data in batch: ...]
    runs the items in list order. *)
Lemma update_loop_calls {A} (u : A -> M unit) (g : A -> call) (data : list A) bs :
  1 <= bs ->
  (forall d s, fst (u d s) = Ok tt /\ calls (snd (u d s)) = (calls s ++ [g d])%list /\
               connected (snd (u d s)) = connected s) ->
  forall s,
  let run := mfor (range_up (List.length data) 0 (List.length data) bs)
                  (fun i => let batch := slice data i bs in mfor batch u) s in
  fst run = Ok tt /\ calls (snd run) = (calls s ++ map g data)%list /\
  connected (snd run) = connected s.
Proof.
  intros Hbs Hu s. cbv zeta.
  destruct (mfor_calls (range_up (List.length data) 0 (List.length data) bs)
              (fun i => mfor (slice data i bs) u) (fun i => map g (slice data i bs)))
    with (s := s) as [H1 [H2 H3]].
  - intros i s'. destruct (mfor_calls (slice data i bs) u (fun d => [g d]) Hu s')
      as [I1 [I2 I3]].
    rewrite concat_singles in I2. auto.
  - repeat split; [exact H1 | | exact H3]. rewrite H2. f_equal.
    rewrite <- map_map with (g := map g), <- concat_map.
    f_equal. apply (concat_chunks data bs Hbs).
Qed.

Lemma pg_update_one_calls drv t d s :
  fst (PgHandler.update_one drv t d s) = Ok tt /\
  calls (snd (PgHandler.update_one drv t d s))
  = (calls s ++ [Execute (fst (Pg.update_stmt t (where_ d) (update d)))
                         (snd (Pg.update_stmt t (where_ d) (update d)))])%list /\
  connected (snd (PgHandler.update_one drv t d s)) = connected s.
Proof.
  unfold PgHandler.update_one.
  destruct (Pg.update_stmt t (where_ d) (update d)) as [q vs].
  unfold try_except, execute, bind, record_call, log_msg, ret, raise. simpl.
  destruct (drv q vs); simpl; auto.
Qed.

Lemma sq_update_one_calls drv t d s :
  fst (SqliteHandler.update_one drv t d s) = Ok tt /\
  calls (snd (SqliteHandler.update_one drv t d s))
  = (calls s ++ [Execute (fst (Sq.update_stmt t (where_ d) (update d)))
                         (snd (Sq.update_stmt t (where_ d) (update d)))])%list /\
  connected (snd (SqliteHandler.update_one drv t d s)) = connected s.
Proof.
  unfold SqliteHandler.update_one.
  destruct (Sq.update_stmt t (where_ d) (update d)) as [q vs].
  unfold try_except, execute, bind, record_call, log_msg, ret, raise. simpl.
  destruct (drv q vs); simpl; auto.
Qed.

Lemma pg_mass_update_calls drv t data bs s :
  (1 <= bs)%Z ->
  calls (snd (PgHandler.mass_update drv t data bs s))
  = (calls s ++ map (fun d => Execute (fst (Pg.update_stmt t (where_ d) (update d)))
                                      (snd (Pg.update_stmt t (where_ d) (update d))))
                    data)%list.
Proof.
  intros Hbs. unfold PgHandler.mass_update. rewrite py_range0_pos by exact Hbs.
  rewrite (bind_ok connect _ s tt (mkst true (calls s) (log s)) eq_refl).
  destruct (update_loop_calls (PgHandler.update_one drv t) _ data (Z.to_nat bs)
              ltac:(lia) (pg_update_one_calls drv t) (mkst true (calls s) (log s)))
    as [H1 [H2 _]].
  cbv zeta in H1, H2 |- *. unfold bind at 1.
  destruct (mfor _ _ _) as [r s2]. simpl in H1, H2. subst r. exact H2.
Qed.

Lemma sq_mass_update_calls drv t data bs s :
  (1 <= bs)%Z ->
  calls (snd (SqliteHandler.mass_update drv t data bs s))
  = (calls s ++ map (fun d => Execute (fst (Sq.update_stmt t (where_ d) (update d)))
                                      (snd (Sq.update_stmt t (where_ d) (update d))))
                    data ++ [Commit])%list.
Proof.
  intros Hbs. unfold SqliteHandler.mass_update. rewrite py_range0_pos by exact Hbs.
  rewrite (bind_ok connect _ s tt (mkst true (calls s) (log s)) eq_refl).
  destruct (update_loop_calls (SqliteHandler.update_one drv t) _ data (Z.to_nat bs)
              ltac:(lia) (sq_update_one_calls drv t) (mkst true (calls s) (log s)))
    as [H1 [H2 _]].
  cbv zeta in H1, H2 |- *.
  destruct (mfor _ _ _) as [r s2] eqn:E. simpl in H1, H2. subst r.
  unfold try_finally, try_except, bind. rewrite E. simpl.
  rewrite H2. now rewrite <- app_assoc.
Qed.



(** ** Bound values and clause structure *)

Lemma pg_where_loop_values conds : forall cl vals,
  snd (Pg.where_loop conds cl vals)
  = (vals ++ flat_map (fun c => filter (fun v => negb (is_none v)) (dict_values c)) conds)%list.
Proof.
  induction conds as [|c conds IH]; intros cl vals; simpl.
  - now rewrite app_nil_r.
  - destruct c as [|p c']; rewrite IH; [reflexivity|]. now rewrite app_assoc.
Qed.

Lemma sq_where_loop_values conds : forall cl vals,
  snd (Sq.where_loop conds cl vals)
  = (vals ++ flat_map (fun c => filter (fun v => negb (is_none v)) (dict_values c)) conds)%list.
Proof.
  induction conds as [|c conds IH]; intros cl vals; simpl.
  - now rewrite app_nil_r.
  - destruct c as [|p c']; rewrite IH; [reflexivity|]. now rewrite app_assoc.
Qed.

Lemma pg_select_values t find conds bs :
  snd (Pg.build_select_query t find conds bs)
  = flat_map (fun c => filter (fun v => negb (is_none v)) (dict_values c)) conds.
Proof.
  unfold Pg.build_select_query. destruct conds as [|c cs]; [reflexivity|].
  pose proof (pg_where_loop_values (c :: cs) [] []) as H.
  destruct (Pg.where_loop (c :: cs) [] []) as [cl vals]. simpl in H.
  destruct cl; [exact H|]. destruct (Z.eqb bs 0); exact H.
Qed.

Lemma sq_select_values t find conds bs :
  snd (Sq.build_select_query t find conds bs)
  = flat_map (fun c => filter (fun v => negb (is_none v)) (dict_values c)) conds.
Proof.
  unfold Sq.build_select_query. destruct conds as [|c cs]; [reflexivity|].
  pose proof (sq_where_loop_values (c :: cs) [] []) as H.
  destruct (Sq.where_loop (c :: cs) [] []) as [cl vals]. simpl in H.
  destruct cl; [exact H|]. destruct (Z.eqb bs 0); exact H.
Qed.

Lemma pg_where_loop_prefix conds : forall cl vals,
  exists r, fst (Pg.where_loop conds cl vals) = (cl ++ r)%list.
Proof.
  induction conds as [|c conds IH]; intros cl vals; simpl.
  - exists []. now rewrite app_nil_r.
  - destruct c as [|p c']; [apply IH|].
    destruct (IH (cl ++ [Pg.select_clause (List.length vals) (p :: c')])%list
                 (vals ++ filter (fun v => negb (is_none v)) (dict_values (p :: c')))%list)
      as [r Hr].
    exists (Pg.select_clause (List.length vals) (p :: c') :: r).
    rewrite Hr. now rewrite <- app_assoc.
Qed.

Lemma sq_where_loop_prefix conds : forall cl vals,
  exists r, fst (Sq.where_loop conds cl vals) = (cl ++ r)%list.
Proof.
  induction conds as [|c conds IH]; intros cl vals; simpl.
  - exists []. now rewrite app_nil_r.
  - destruct c as [|p c']; [apply IH|].
    destruct (IH (cl ++ [Sq.select_clause (p :: c')])%list
                 (vals ++ filter (fun v => negb (is_none v)) (dict_values (p :: c')))%list)
      as [r Hr].
    exists (Sq.select_clause (p :: c') :: r).
    rewrite Hr. now rewrite <- app_assoc.
Qed.

Lemma pg_where_loop_clauses conds : forall cl vals,
  fst (Pg.where_loop conds cl vals) = [] <-> cl = [] /\ has_nonempty_condition conds = false.
Proof.
  induction conds as [|c conds IH]; intros cl vals; simpl; [tauto|].
  destruct c as [|p c']; simpl; [apply IH|].
  match goal with
  | |- fst (Pg.where_loop conds ?a ?b) = [] <-> _ =>
      destruct (pg_where_loop_prefix conds a b) as [r Hr]; rewrite Hr
  end.
  split; [|intros [_ H]; discriminate H].
  intros H. destruct cl; discriminate H.
Qed.

Lemma sq_where_loop_clauses conds : forall cl vals,
  fst (Sq.where_loop conds cl vals) = [] <-> cl = [] /\ has_nonempty_condition conds = false.
Proof.
  induction conds as [|c conds IH]; intros cl vals; simpl; [tauto|].
  destruct c as [|p c']; simpl; [apply IH|].
  match goal with
  | |- fst (Sq.where_loop conds ?a ?b) = [] <-> _ =>
      destruct (sq_where_loop_prefix conds a b) as [r Hr]; rewrite Hr
  end.
  split; [|intros [_ H]; discriminate H].
  intros H. destruct cl; discriminate H.
Qed.

Lemma null_cols_app (a b : dict) :
  Pg.null_cols (a ++ b)%list = (Pg.null_cols a ++ Pg.null_cols b)%list.
Proof. unfold Pg.null_cols. now rewrite filter_app, map_app. Qed.

Lemma null_cols_none pre : Forall (fun p => snd p <> VNull) pre -> Pg.null_cols pre = [].
Proof.
  induction 1 as [|[k v] pre Hv _ IH]; [reflexivity|].
  unfold Pg.null_cols in *. simpl in Hv |- *.
  destruct v; simpl; [congruence | exact IH | exact IH].
Qed.

Lemma join_nonempty sep x l : x <> "" -> join sep (x :: l) <> "".
Proof. destruct l; simpl; [auto|]. destruct x; [congruence | discriminate]. Qed.

Lemma pg_count_where_nonempty wc :
  wc <> [] ->
  String.eqb (join " AND " (enum_map (fun i col => col ++ " = $" ++ str_nat (i + 1))
                                     (dict_keys wc))) "" = false.
Proof.
  intros H. destruct wc as [|[k v] wc']; [congruence|].
  apply String.eqb_neq, join_nonempty. destruct k; discriminate.
Qed.

Lemma sq_count_where_nonempty wc :
  wc <> [] ->
  String.eqb (join " AND " (map (fun col => col ++ " = ?") (dict_keys wc))) "" = false.
Proof.
  intros H. destruct wc as [|[k v] wc']; [congruence|].
  apply String.eqb_neq, join_nonempty. destruct k; discriminate.
Qed.

(** ** Failure and connection-state lemmas *)







(** Operations run against a driver on which every statement fails. *)
Section Fail.
Variable drv : driver.
Variable m : string.
Hypothesis Hf : forall q ps, drv q ps = DFail m.

End Fail.

Lemma try_finally_close {A} (m : M A) s : connected (snd (try_finally m close s)) = false.
Proof. unfold try_finally. destruct (m s) as [r s1]. reflexivity. Qed.

Lemma bind_connected_after {A B} (m : M A) (b : B) s :
  connected (snd (m s)) = false -> connected (snd ((m ;; ret b) s)) = false.
Proof. unfold bind. destruct (m s) as [[a|e] s1]; simpl; auto. Qed.

Lemma pg_select_clause_pieces nv c : forall i,
  Forall2 pg_select_piece c
    (enum_map_from (fun i '(key, v) =>
                      if is_none v then key ++ " IS NULL"
                      else key ++ " = $" ++ str_nat (nv + i + 1)) i c).
Proof.
  induction c as [|[k v] c IH]; intros i; simpl; constructor; [|apply IH].
  unfold pg_select_piece. simpl. destruct (is_none v); [reflexivity | eexists; reflexivity].
Qed.

Lemma sq_select_clause_pieces c :
  Forall2 sq_select_piece c
    (map (fun '(key, v) => if is_none v then key ++ " IS NULL" else key ++ " = ?") c).
Proof.
  induction c as [|[k v] c IH]; simpl; constructor; [|exact IH].
  unfold sq_select_piece. simpl. destruct (is_none v); reflexivity.
Qed.

Lemma pg_where_loop_render conds : forall cl vals,
  exists fresh, fst (Pg.where_loop conds cl vals) = (cl ++ fresh)%list /\
    Forall2 (renders pg_select_piece) (filter nonempty_cond conds) fresh.
Proof.
  induction conds as [|c conds IH]; intros cl vals; simpl.
  - exists []. split; [now rewrite app_nil_r | constructor].
  - destruct c as [|kv c']; simpl; [apply IH|].
    match goal with
    | |- context [Pg.where_loop conds ?a ?b] => destruct (IH a b) as [fresh [E F]]
    end.
    eexists. split; [rewrite E, <- app_assoc; reflexivity|].
    constructor; [|exact F].
    eexists. split; [reflexivity | apply pg_select_clause_pieces].
Qed.

Lemma sq_where_loop_render conds : forall cl vals,
  exists fresh, fst (Sq.where_loop conds cl vals) = (cl ++ fresh)%list /\
    Forall2 (renders sq_select_piece) (filter nonempty_cond conds) fresh.
Proof.
  induction conds as [|c conds IH]; intros cl vals; simpl.
  - exists []. split; [now rewrite app_nil_r | constructor].
  - destruct c as [|kv c']; simpl; [apply IH|].
    match goal with
    | |- context [Sq.where_loop conds ?a ?b] => destruct (IH a b) as [fresh [E F]]
    end.
    eexists. split; [rewrite E, <- app_assoc; reflexivity|].
    constructor; [|exact F].
    eexists. split; [reflexivity | apply sq_select_clause_pieces].
Qed.

Lemma pg_select_render t find conds bs :
  has_nonempty_condition conds = true ->
  let base := "SELECT " ++ join ", " find ++ " FROM " ++ t in
  exists clauses,
    fst (Pg.build_select_query t find conds bs)
    = (base ++ " WHERE " ++ join " OR " (map (fun c => "(" ++ c ++ ")") clauses))
      ++ (if Z.eqb bs 0 then "" else " LIMIT " ++ str_Z bs) /\
    Forall2 (renders pg_select_piece) (filter nonempty_cond conds) clauses.
Proof.
  intros H base. unfold Pg.build_select_query.
  destruct conds as [|c cs]; [discriminate H|].
  assert (Hp : fst (Pg.where_loop (c :: cs) [] []) <> []).
  { intros E. apply pg_where_loop_clauses in E. destruct E as [_ E]. congruence. }
  destruct (pg_where_loop_render (c :: cs) [] []) as [fresh [E F]].
  destruct (Pg.where_loop (c :: cs) [] []) as [cl vals]. simpl in Hp, E. subst cl.
  exists fresh. split; [|exact F].
  destruct fresh as [|x xs]; [congruence|].
  destruct (Z.eqb bs 0); simpl; [now rewrite str_app_nil_r | reflexivity].
Qed.

Lemma sq_select_render t find conds bs :
  has_nonempty_condition conds = true ->
  let base := "SELECT " ++ join ", " find ++ " FROM " ++ t in
  exists clauses,
    fst (Sq.build_select_query t find conds bs)
    = (base ++ " WHERE " ++ join " OR " (map (fun c => "(" ++ c ++ ")") clauses))
      ++ (if Z.eqb bs 0 then "" else " LIMIT " ++ str_Z bs) /\
    Forall2 (renders sq_select_piece) (filter nonempty_cond conds) clauses.
Proof.
  intros H base. unfold Sq.build_select_query.
  destruct conds as [|c cs]; [discriminate H|].
  assert (Hp : fst (Sq.where_loop (c :: cs) [] []) <> []).
  { intros E. apply sq_where_loop_clauses in E. destruct E as [_ E]. congruence. }
  destruct (sq_where_loop_render (c :: cs) [] []) as [fresh [E F]].
  destruct (Sq.where_loop (c :: cs) [] []) as [cl vals]. simpl in Hp, E. subst cl.
  exists fresh. split; [|exact F].
  destruct fresh as [|x xs]; [congruence|].
  destruct (Z.eqb bs 0); simpl; [now rewrite str_app_nil_r | reflexivity].
Qed.

Lemma pg_delete_pieces (wc : dict) : forall i,
  Forall2 (fun kv p => exists n, p = fst kv ++ " = $" ++ str_nat n) wc
    (enum_map_from (fun i key => key ++ " = $" ++ str_nat (i + 1)) i (dict_keys wc)).
Proof.
  induction wc as [|[k v] wc IH]; intros i; simpl; constructor; [|apply IH].
  eexists. reflexivity.
Qed.

Lemma sq_delete_pieces (wc : dict) :
  Forall2 (fun kv p => p = fst kv ++ " = ?") wc (map (fun key => key ++ " = ?") (dict_keys wc)).
Proof. induction wc as [|[k v] wc IH]; simpl; constructor; [reflexivity | exact IH]. Qed.

(** ** Claims *)

(** C1 (counterexample). [delete] binds a null value: the Condition
    [{a: None}] gives [DELETE FROM t WHERE a = $1] with the bound list
    [[None]]. *)
Lemma C1_delete_binds_null :
  Pg.delete_stmt "t" [("a", VNull)] = ("DELETE FROM t WHERE a = $1", [VNull]) /\
  In VNull (snd (Pg.delete_stmt "t" [("a", VNull)])).
Proof. split; [reflexivity | left; reflexivity]. Qed.

(** C1 (amended). On both backends the select predicate binds exactly the
    non-null values of the ConditionSet, in column iteration order, and never
    a null; delete and count bind every value of their Condition, nulls
    included. In the select predicate each non-empty Condition becomes one
    parenthesised AND-clause rendering each column in order, a null-valued
    one as [column IS NULL] with no placeholder and any other as
    [column = $n] (pooled) or [column = ?] (embedded); delete renders every
    column of a non-empty Condition, a null-valued one included, as
    [column = $n] or [column = ?]. *)
Theorem C1_bound_values t find conds bs wc :
  let nonnull := flat_map (fun c => filter (fun v => negb (is_none v)) (dict_values c))
                          conds in
  let base := "SELECT " ++ join ", " find ++ " FROM " ++ t in
  let limit := if Z.eqb bs 0 then "" else " LIMIT " ++ str_Z bs in
  snd (Pg.build_select_query t find conds bs) = nonnull /\
  snd (Sq.build_select_query t find conds bs) = nonnull /\
  (forall v, In v nonnull -> v <> VNull) /\
  snd (Pg.delete_stmt t wc) = dict_values wc /\
  snd (Sq.delete_stmt t wc) = dict_values wc /\
  snd (Pg.count_stmt t wc) = dict_values wc /\
  snd (Sq.count_stmt t wc) = dict_values wc /\
  (has_nonempty_condition conds = true ->
     exists clauses,
       fst (Pg.build_select_query t find conds bs)
       = (base ++ " WHERE " ++ join " OR " (map (fun c => "(" ++ c ++ ")") clauses)) ++ limit /\
       Forall2 (renders pg_select_piece) (filter nonempty_cond conds) clauses) /\
  (has_nonempty_condition conds = true ->
     exists clauses,
       fst (Sq.build_select_query t find conds bs)
       = (base ++ " WHERE " ++ join " OR " (map (fun c => "(" ++ c ++ ")") clauses)) ++ limit /\
       Forall2 (renders sq_select_piece) (filter nonempty_cond conds) clauses) /\
  (wc <> [] ->
     exists pieces,
       fst (Pg.delete_stmt t wc) = ("DELETE FROM " ++ t) ++ " WHERE " ++ join " AND " pieces /\
       Forall2 (fun kv p => exists n, p = fst kv ++ " = $" ++ str_nat n) wc pieces) /\
  (wc <> [] ->
     exists pieces,
       fst (Sq.delete_stmt t wc) = ("DELETE FROM " ++ t) ++ " WHERE " ++ join " AND " pieces /\
       Forall2 (fun kv p => p = fst kv ++ " = ?") wc pieces).
Proof.
  intros nonnull base limit.
  split; [apply pg_select_values|]. split; [apply sq_select_values|].
  split.
  { intros v Hv. apply in_flat_map in Hv as [c [_ Hc]].
    apply filter_In in Hc as [_ Hn]. intros ->. discriminate Hn. }
  split; [reflexivity|]. split; [reflexivity|]. split; [reflexivity|]. split; [reflexivity|].
  split; [apply pg_select_render|]. split; [apply sq_select_render|].
  split; intros Hw; (destruct wc as [|kv wc']; [contradiction|]).
  - eexists. split; [reflexivity | apply pg_delete_pieces].
  - eexists. split; [reflexivity | apply sq_delete_pieces].
Qed.

(** C2 (counterexample). The UPDATE statement numbers its placeholders
    [$2] then [$1] from left to right. *)
Lemma C2_update_placeholders_not_increasing :
  placeholders (fst (Pg.update_stmt "t" [("id", VInt 1)] [("name", VStr "J")]))
  = ["2"; "1"] /\
  placeholders (fst (Pg.update_stmt "t" [("id", VInt 1)] [("name", VStr "J")]))
  <> map str_nat (seq 1 2).
Proof. split; [reflexivity | discriminate]. Qed.

(** C2 (amended). On the pooled backend, with identifiers free of [$]: the
    delete and count statements read [$1 .. $n] left to right for their [n]
    bound values; the select statement does so too when no condition value
    is null; the UPDATE statement uses each of [$1 .. $w+u] once, the SET
    placeholders [$w+1 .. $w+u] before the WHERE placeholders [$1 .. $w],
    and [$k] binds the [k]-th value of [where values ++ update values]. *)
Theorem C2_placeholder_numbering t find conds bs wd ud wc :
  dollar_free t = true -> forallb dollar_free find = true ->
  Forall (fun c => plain_condition c = true) conds ->
  forallb dollar_free (dict_keys wd) = true -> forallb dollar_free (dict_keys ud) = true ->
  forallb dollar_free (dict_keys wc) = true ->
  placeholders (fst (Pg.build_select_query t find conds bs))
    = map str_nat (seq 1 (List.length (snd (Pg.build_select_query t find conds bs)))) /\
  placeholders (fst (Pg.update_stmt t wd ud))
    = map str_nat (seq (List.length wd + 1) (List.length ud) ++ seq 1 (List.length wd)) /\
  snd (Pg.update_stmt t wd ud) = (dict_values wd ++ dict_values ud)%list /\
  placeholders (fst (Pg.delete_stmt t wc)) = map str_nat (seq 1 (List.length wc)) /\
  List.length (snd (Pg.delete_stmt t wc)) = List.length wc /\
  placeholders (fst (Pg.count_stmt t wc)) = map str_nat (seq 1 (List.length wc)) /\
  List.length (snd (Pg.count_stmt t wc)) = List.length wc.
Proof.
  intros Ht Hf Hc Hw Hu Hwc.
  split; [now apply pg_select_placeholders|].
  split; [now apply pg_update_placeholders|].
  split; [reflexivity|].
  split; [now apply pg_delete_placeholders|].
  split; [apply length_map|].
  split; [now apply pg_count_placeholders|].
  apply length_map.
Qed.

(** C3 (counterexample). On the pooled backend the WHERE values are bound
    first: for [where = {id: 1}], [update = {name: 'J'}] the SET placeholder
    is [$2] and the bound list is [[1, 'J']]. *)
Lemma C3_pg_update_binds_where_first :
  Pg.update_stmt "t" [("id", VInt 1)] [("name", VStr "J")]
  = ("UPDATE t SET name = $2 WHERE id = $1", [VInt 1; VStr "J"]) /\
  snd (Pg.update_stmt "t" [("id", VInt 1)] [("name", VStr "J")])
  <> (dict_values [("name", VStr "J")] ++ dict_values [("id", VInt 1)])%list.
Proof. split; [reflexivity | discriminate]. Qed.

(** C3 (amended). The embedded backend binds the SET values first and the
    WHERE values after them; the pooled backend binds the WHERE values first
    ([$1 .. $w]) and the SET values after them ([$w+1 .. $w+u], which appear
    first in the text). Each UpdateSpec is executed once with that list, in
    input order. *)
Theorem C3_update_binding_order drv t wd ud data bs s :
  dollar_free t = true ->
  forallb dollar_free (dict_keys wd) = true -> forallb dollar_free (dict_keys ud) = true ->
  (1 <= bs)%Z ->
  snd (Sq.update_stmt t wd ud) = (dict_values ud ++ dict_values wd)%list /\
  snd (Pg.update_stmt t wd ud) = (dict_values wd ++ dict_values ud)%list /\
  placeholders (fst (Pg.update_stmt t wd ud))
    = map str_nat (seq (List.length wd + 1) (List.length ud) ++ seq 1 (List.length wd)) /\
  calls (snd (SqliteHandler.mass_update drv t data bs s))
    = (calls s ++ map (fun d => Execute (fst (Sq.update_stmt t (where_ d) (update d)))
                                        (snd (Sq.update_stmt t (where_ d) (update d))))
                      data ++ [Commit])%list /\
  calls (snd (PgHandler.mass_update drv t data bs s))
    = (calls s ++ map (fun d => Execute (fst (Pg.update_stmt t (where_ d) (update d)))
                                        (snd (Pg.update_stmt t (where_ d) (update d))))
                      data)%list.
Proof.
  intros Ht Hw Hu Hbs.
  split; [reflexivity|]. split; [reflexivity|].
  split; [now apply pg_update_placeholders|].
  split; [now apply sq_mass_update_calls | now apply pg_mass_update_calls].
Qed.


(** C5 (counterexample). Count AND-joins every column, the null-valued one
    included: [{a: 1, b: None}] gives two equality placeholders for one
    non-null value. *)
Lemma C5_count_joins_null_column :
  Pg.count_stmt "t" [("a", VInt 1); ("b", VNull)]
  = ("SELECT COUNT(*) FROM t WHERE a = $1 AND b = $2 OR b IS NULL", [VInt 1; VNull]) /\
  List.length (placeholders (fst (Pg.count_stmt "t" [("a", VInt 1); ("b", VNull)])))
  <> List.length (filter (fun v => negb (is_none v)) (dict_values [("a", VInt 1); ("b", VNull)])).
Proof. split; [reflexivity | discriminate]. Qed.

(** C5 (amended). Count builds the count query over the table, AND-joins an
    equality placeholder over every condition column (null-valued ones
    included, bound as null), and, when some value is null, appends
    [OR <column> IS NULL] unparenthesized for the first null-valued column. *)
Theorem C5_count_query t wc :
  let base := "SELECT COUNT(*) FROM " ++ t in
  let W := join " AND " (enum_map (fun i col => col ++ " = $" ++ str_nat (i + 1))
                                  (dict_keys wc)) in
  let Wq := join " AND " (map (fun col => col ++ " = ?") (dict_keys wc)) in
  snd (Pg.count_stmt t wc) = dict_values wc /\
  snd (Sq.count_stmt t wc) = dict_values wc /\
  (wc = [] -> fst (Pg.count_stmt t wc) = base /\ fst (Sq.count_stmt t wc) = base) /\
  (wc <> [] -> Pg.null_cols wc = [] ->
     fst (Pg.count_stmt t wc) = base ++ " WHERE " ++ W /\
     fst (Sq.count_stmt t wc) = base ++ " WHERE " ++ Wq) /\
  (forall pre c post,
     wc = (pre ++ (c, VNull) :: post)%list -> Forall (fun p => snd p <> VNull) pre ->
     fst (Pg.count_stmt t wc) = (base ++ " WHERE " ++ W) ++ " OR " ++ c ++ " IS NULL" /\
     fst (Sq.count_stmt t wc) = (base ++ " WHERE " ++ Wq) ++ " OR " ++ c ++ " IS NULL").
Proof.
  cbv zeta.
  split; [reflexivity|]. split; [reflexivity|]. split; [|split].
  - intros ->. split; reflexivity.
  - intros Hne Hn. unfold Pg.count_stmt, Sq.count_stmt. cbv zeta.
    rewrite (pg_count_where_nonempty wc Hne), (sq_count_where_nonempty wc Hne), Hn.
    split; reflexivity.
  - intros pre c post E Hpre.
    assert (Hne : wc <> []) by (rewrite E; apply not_eq_sym, app_cons_not_nil).
    assert (Hn : Pg.null_cols wc = c :: Pg.null_cols post).
    { rewrite E, null_cols_app, null_cols_none by exact Hpre. reflexivity. }
    unfold Pg.count_stmt, Sq.count_stmt. cbv zeta.
    rewrite (pg_count_where_nonempty wc Hne), (sq_count_where_nonempty wc Hne), Hn.
    split; reflexivity.
Qed.

(** C6. Select appends [LIMIT <batch_size>] exactly when the batch size is
    nonzero and some Condition is non-empty; otherwise, with no non-empty
    Condition, the query has neither WHERE nor LIMIT. *)
Theorem C6_select_limit t find conds bs :
  let base := "SELECT " ++ join ", " find ++ " FROM " ++ t in
  let limit := if Z.eqb bs 0 then "" else " LIMIT " ++ str_Z bs in
  (has_nonempty_condition conds = false ->
     fst (Pg.build_select_query t find conds bs) = base /\
     fst (Sq.build_select_query t find conds bs) = base) /\
  (has_nonempty_condition conds = true ->
     fst (Pg.where_loop conds [] []) <> [] /\
     fst (Pg.build_select_query t find conds bs)
       = (base ++ " WHERE " ++ join " OR " (map (fun c => "(" ++ c ++ ")")
                                              (fst (Pg.where_loop conds [] [])))) ++ limit /\
     fst (Sq.where_loop conds [] []) <> [] /\
     fst (Sq.build_select_query t find conds bs)
       = (base ++ " WHERE " ++ join " OR " (map (fun c => "(" ++ c ++ ")")
                                              (fst (Sq.where_loop conds [] [])))) ++ limit).
Proof.
  cbv zeta. split.
  - intros H. unfold Pg.build_select_query, Sq.build_select_query.
    destruct conds as [|c cs]; [split; reflexivity|].
    pose proof (proj2 (pg_where_loop_clauses (c :: cs) [] []) (conj eq_refl H)) as Hp.
    pose proof (proj2 (sq_where_loop_clauses (c :: cs) [] []) (conj eq_refl H)) as Hs.
    destruct (Pg.where_loop (c :: cs) [] []) as [cl vals].
    destruct (Sq.where_loop (c :: cs) [] []) as [cl' vals'].
    simpl in Hp, Hs. subst cl cl'. split; reflexivity.
  - intros H.
    assert (Hp : fst (Pg.where_loop conds [] []) <> []).
    { intros E. apply pg_where_loop_clauses in E. destruct E as [_ E]. congruence. }
    assert (Hs : fst (Sq.where_loop conds [] []) <> []).
    { intros E. apply sq_where_loop_clauses in E. destruct E as [_ E]. congruence. }
    split; [exact Hp|]. split; [|split; [exact Hs|]].
    + unfold Pg.build_select_query.
      destruct conds as [|c cs]; [discriminate H|].
      destruct (Pg.where_loop (c :: cs) [] []) as [cl vals]. simpl in Hp |- *.
      destruct cl as [|x xs]; [congruence|].
      destruct (Z.eqb bs 0); simpl; [now rewrite str_app_nil_r | reflexivity].
    + unfold Sq.build_select_query.
      destruct conds as [|c cs]; [discriminate H|].
      destruct (Sq.where_loop (c :: cs) [] []) as [cl vals]. simpl in Hs |- *.
      destruct cl as [|x xs]; [congruence|].
      destruct (Z.eqb bs 0); simpl; [now rewrite str_app_nil_r | reflexivity].
Qed.


(** C8 (code bug). With the default column list [*], the embedded backend
    zips the literal column list with each row, so a [users] row
    [(1, 'John', 25)] comes back as [{'*': 1}], while the pooled backend
    returns the row with all its columns. *)
Theorem C8_sqlite_star_select :
  fst (SqliteHandler.select_data users_driver "users" None None 1000 st0)
    = Ok (PRows [[("*", VInt 1)]]) /\
  fst (PgHandler.select_data users_driver "users" None None 1000 st0)
    = Ok (PRows [[("id", VInt 1); ("name", VStr "John"); ("age", VInt 25)]]).
Proof. split; reflexivity. Qed.

(** C9 (counterexample). The pooled backend closes the pool after select
    and leaves it open after count; the embedded backend leaves its
    connection open after delete-all. *)
Lemma C9_pooled_select_closes_count_keeps :
  connected (snd (PgHandler.select_data users_driver "users" None None 1000 st0)) = false /\
  connected (snd (PgHandler.count_records users_driver "users" (ADict []) st0)) = true /\
  connected (snd (SqliteHandler.delete_all_data_from_table users_driver "users" st0)) = true.
Proof. repeat split; reflexivity. Qed.

(** C9 (amended). On the embedded backend, create, bulk update, bulk
    insert, select, delete and count (past its argument check) end with the
    connection closed, whatever the driver does; on the pooled backend the
    pool is closed after select and still open after count. *)
Theorem C9_connection_state drv :
  (forall ti s, connected (snd (SqliteHandler.create_tables drv ti s)) = false) /\
  (forall t data bs s, connected (snd (SqliteHandler.mass_update drv t data bs s)) = false) /\
  (forall t records bs s,
     connected (snd (SqliteHandler.insert_into_table_bulk drv t records bs s)) = false) /\
  (forall t f w bs s, connected (snd (SqliteHandler.select_data drv t f w bs s)) = false) /\
  (forall t wc s, connected (snd (SqliteHandler.delete_data drv t wc s)) = false) /\
  (forall t wc s, t <> "" ->
     connected (snd (SqliteHandler.count_records drv t (ADict wc) s)) = false) /\
  (forall t f w bs s, connected (snd (PgHandler.select_data drv t f w bs s)) = false) /\
  (forall t wc s, t <> "" ->
     connected (snd (PgHandler.count_records drv t (ADict wc) s)) = true).
Proof.
  repeat split.
  - intros ti s. unfold SqliteHandler.create_tables.
    rewrite (bind_ok connect _ s tt _ eq_refl). apply try_finally_close.
  - intros t data bs s. unfold SqliteHandler.mass_update.
    rewrite (bind_ok connect _ s tt _ eq_refl).
    apply bind_connected_after, try_finally_close.
  - intros t records bs s. unfold SqliteHandler.insert_into_table_bulk.
    rewrite (bind_ok connect _ s tt _ eq_refl). apply try_finally_close.
  - intros t f w bs s. unfold SqliteHandler.select_data.
    rewrite (bind_ok connect _ s tt _ eq_refl). cbv zeta.
    destruct (Sq.build_select_query _ _ _ _). apply try_finally_close.
  - intros t wc s. apply try_finally_close.
  - intros t wc s Ht. unfold SqliteHandler.count_records.
    destruct (String.eqb_spec t "") as [E|_]; [contradiction|].
    rewrite (bind_ok connect _ s tt _ eq_refl). apply try_finally_close.
  - intros t f w bs s. unfold PgHandler.select_data.
    rewrite (bind_ok connect _ s tt _ eq_refl). cbv zeta.
    destruct (Pg.build_select_query _ _ _ _). apply try_finally_close.
  - intros t wc s Ht. unfold PgHandler.count_records.
    destruct (String.eqb_spec t "") as [E|_]; [contradiction|].
    rewrite (bind_ok connect _ s tt _ eq_refl).
    destruct (Pg.count_stmt t wc) as [q vs].
    unfold try_except, fetchval, bind, record_call, log_msg, ret, raise. simpl.
    destruct (drv q vs) as [[|[|[k v] r] rs]|msg]; reflexivity.
Qed.

(** C10. For a non-empty table name and a dict condition, the embedded
    backend's count always raises: the driver's error when the statement
    fails, and otherwise [AttributeError] for the [fetchval] attribute that
    a [sqlite3.Cursor] lacks. The error is logged and the connection is
    closed on exit. *)
Theorem C10_sqlite_count_raises drv t wc s : t <> "" ->
  exists e,
    fst (SqliteHandler.count_records drv t (ADict wc) s) = Raise e /\
    (e = AttributeError "fetchval" \/ exists msg, e = DbError msg) /\
    (forall rows, drv (fst (Sq.count_stmt t wc)) (snd (Sq.count_stmt t wc)) = DOk rows ->
       e = AttributeError "fetchval") /\
    In (Error, "Error counting records: " ++ str_exn e)
       (log (snd (SqliteHandler.count_records drv t (ADict wc) s))) /\
    connected (snd (SqliteHandler.count_records drv t (ADict wc) s)) = false.
Proof.
  intros Ht. unfold SqliteHandler.count_records.
  destruct (String.eqb_spec t "") as [E|_]; [contradiction|].
  rewrite (bind_ok connect _ s tt _ eq_refl).
  destruct (Sq.count_stmt t wc) as [q vs]. simpl fst; simpl snd.
  unfold try_finally, try_except, execute, bind, record_call, log_msg, ret, raise, close.
  destruct (drv q vs) as [rows|msg] eqn:Ed; simpl.
  - exists (AttributeError "fetchval"). repeat split; auto.
    apply in_or_app; right; left; reflexivity.
  - exists (DbError msg). repeat split; eauto.
    + intros rows H. congruence.
    + apply in_or_app; right; left; reflexivity.
Qed.

(** ** Witnesses *)

Lemma C2_placeholder_numbering_witness :
  placeholders (fst (Pg.build_select_query "users" ["name"]
                       [[("age", VInt 30); ("city", VStr "NY")]] 10)) = ["1"; "2"].
Proof.
  assert (Hc : Forall (fun c => plain_condition c = true)
                      [[("age", VInt 30); ("city", VStr "NY")]])
    by (constructor; [reflexivity | constructor]).
  destruct (C2_placeholder_numbering "users" ["name"] [[("age", VInt 30); ("city", VStr "NY")]]
              10 [("id", VInt 1)] [("name", VStr "J")] [("id", VInt 1)]
              eq_refl eq_refl Hc eq_refl eq_refl eq_refl) as [H _].
  exact H.
Defined.

Lemma C3_update_binding_order_witness :
  snd (Sq.update_stmt "users" [("id", VInt 1)] [("name", VStr "J")]) = [VStr "J"; VInt 1].
Proof.
  destruct (C3_update_binding_order users_driver "users" [("id", VInt 1)] [("name", VStr "J")]
              [] 1 st0 eq_refl eq_refl eq_refl ltac:(lia)) as [H _].
  exact H.
Defined.


Lemma C5_count_query_witness :
  fst (Pg.count_stmt "t" [("a", VInt 1); ("b", VNull)])
  = "SELECT COUNT(*) FROM t WHERE a = $1 AND b = $2 OR b IS NULL".
Proof.
  destruct (C5_count_query "t" [("a", VInt 1); ("b", VNull)]) as [_ [_ [_ [_ H]]]].
  assert (Hp : Forall (fun p : string * value => snd p <> VNull) [("a", VInt 1)])
    by (constructor; [discriminate | constructor]).
  destruct (H [("a", VInt 1)] "b" [] eq_refl Hp) as [H1 _].
  exact H1.
Defined.

Lemma C6_select_limit_witness :
  fst (Pg.build_select_query "users" ["name"] [[("age", VInt 30)]] 10)
  = "SELECT name FROM users WHERE (age = $1) LIMIT 10".
Proof.
  destruct (C6_select_limit "users" ["name"] [[("age", VInt 30)]] 10) as [_ H].
  destruct (H eq_refl) as [_ [H1 _]].
  exact H1.
Defined.


Lemma C9_connection_state_witness :
  connected (snd (PgHandler.count_records users_driver "users" (ADict []) st0)) = true.
Proof.
  destruct (C9_connection_state users_driver) as [_ [_ [_ [_ [_ [_ [_ H]]]]]]].
  exact (H "users" [] st0 ltac:(discriminate)).
Defined.

Lemma C10_sqlite_count_raises_witness :
  fst (SqliteHandler.count_records users_driver "users" (ADict []) st0)
  = Raise (AttributeError "fetchval").
Proof.
  destruct (C10_sqlite_count_raises users_driver "users" [] st0 ltac:(discriminate))
    as [e [H1 [_ [H3 _]]]].
  rewrite H1. rewrite (H3 _ eq_refl). reflexivity.
Defined.

Lemma C1_bound_values_witness :
  snd (Pg.build_select_query "users" ["name"] [[("age", VInt 30); ("city", VNull)]] 10)
    = [VInt 30] /\ VInt 30 <> VNull /\
  (exists clauses,
     Forall2 (renders pg_select_piece) [[("age", VInt 30); ("city", VNull)]] clauses) /\
  (exists pieces,
     Forall2 (fun kv p => exists n, p = fst kv ++ " = $" ++ str_nat n) [("city", VNull)] pieces).
Proof.
  destruct (C1_bound_values "users" ["name"] [[("age", VInt 30); ("city", VNull)]] 10
              [("city", VNull)])
    as [H1 [_ [H3 [_ [_ [_ [_ [H8 [_ [H10 _]]]]]]]]]].
  split; [exact H1|]. split; [apply H3; simpl; left; reflexivity|]. split.
  - destruct (H8 eq_refl) as [cl [_ F]]. exists cl. exact F.
  - destruct (H10 ltac:(discriminate)) as [ps [_ F]]. exists ps. exact F.
Defined.

(** ** Further properties of the handlers *)


(** Count rejects a non-dict condition or an empty table name with
    [ValueError("Invalid parameters")] before connecting: no call, no log
    line, the state unchanged, on both backends. *)
Lemma count_invalid_args drv t wc s : (wc = AOther \/ t = "") ->
  PgHandler.count_records drv t wc s = (Raise (ValueError "Invalid parameters"), s) /\
  SqliteHandler.count_records drv t wc s = (Raise (ValueError "Invalid parameters"), s).
Proof. intros [-> | ->]; [split; reflexivity|]. destruct wc; split; reflexivity. Qed.

(** Delete with an empty Condition runs the bare [DELETE FROM <table>]:
    it makes the same driver calls as delete-all and returns ["ok"]
    exactly when delete-all does, on both backends. *)
Lemma delete_empty_condition drv t s :
  calls (snd (PgHandler.delete_data drv t [] s)) = (calls s ++ [Execute ("DELETE FROM " ++ t) []])%list /\
  calls (snd (PgHandler.delete_data drv t [] s))
    = calls (snd (PgHandler.delete_all_data_from_table drv t s)) /\
  calls (snd (SqliteHandler.delete_data drv t [] s))
    = calls (snd (SqliteHandler.delete_all_data_from_table drv t s)) /\
  (fst (PgHandler.delete_data drv t [] s) = Ok (PStr "ok")
     <-> fst (PgHandler.delete_all_data_from_table drv t s) = Ok (PStr "ok")) /\
  (fst (SqliteHandler.delete_data drv t [] s) = Ok (PStr "ok")
     <-> fst (SqliteHandler.delete_all_data_from_table drv t s) = Ok (PStr "ok")).
Proof.
  unfold PgHandler.delete_data, PgHandler.delete_all_data_from_table,
    SqliteHandler.delete_data, SqliteHandler.delete_all_data_from_table.
  change (Pg.delete_stmt t []) with ("DELETE FROM " ++ t, @nil value).
  change (Sq.delete_stmt t []) with ("DELETE FROM " ++ t, @nil value).
  generalize ("DELETE FROM " ++ t) as q. intros q.
  unfold try_finally, try_except, execute, SqliteHandler.commit, bind, record_call,
    log_msg, ret, raise, connect, close. simpl.
  destruct (drv q []); simpl;
    repeat split; try reflexivity; intros H; discriminate H.
Qed.

Lemma py_range0_nil bs : bs <> 0%Z -> py_range0 0 bs = inr [].
Proof.
  intros H. unfold py_range0. rewrite (proj2 (Z.eqb_neq bs 0) H).
  destruct (Z.ltb bs 0); reflexivity.
Qed.

Lemma py_range0_neg n bs : (bs < 0)%Z -> py_range0 n bs = inr [].
Proof.
  intros H. unfold py_range0.
  rewrite (proj2 (Z.eqb_neq bs 0)) by lia. rewrite (proj2 (Z.ltb_lt bs 0)) by lia.
  reflexivity.
Qed.

(** Bulk insert of an empty record list with a nonzero batch size sends
    no statement and returns ["ok"]; the embedded backend still commits. *)
Lemma insert_empty_records drv t bs s : bs <> 0%Z ->
  fst (PgHandler.insert_into_table_bulk drv t [] bs s) = Ok (PStr "ok") /\
  calls (snd (PgHandler.insert_into_table_bulk drv t [] bs s)) = calls s /\
  fst (SqliteHandler.insert_into_table_bulk drv t [] bs s) = Ok (PStr "ok") /\
  calls (snd (SqliteHandler.insert_into_table_bulk drv t [] bs s)) = (calls s ++ [Commit])%list.
Proof.
  intros H. unfold PgHandler.insert_into_table_bulk, SqliteHandler.insert_into_table_bulk.
  simpl List.length. rewrite !(py_range0_nil bs H).
  repeat split; simpl; try reflexivity; apply app_nil_r.
Qed.

(** With batch size 0, bulk insert makes no driver call and returns
    ["Error adding records: range() arg 3 must not be zero"], on both
    backends. *)
Lemma insert_zero_batch drv t records s :
  let msg := "Error adding records: range() arg 3 must not be zero" in
  fst (PgHandler.insert_into_table_bulk drv t records 0 s) = Ok (PStr msg) /\
  calls (snd (PgHandler.insert_into_table_bulk drv t records 0 s)) = calls s /\
  fst (SqliteHandler.insert_into_table_bulk drv t records 0 s) = Ok (PStr msg) /\
  calls (snd (SqliteHandler.insert_into_table_bulk drv t records 0 s)) = calls s.
Proof. repeat split; reflexivity. Qed.

(** With a negative batch size the batch loops run zero times: bulk insert
    sends no record, returns ["ok"] and still logs that all records were
    added, on both backends; bulk update executes no statement and returns
    [None] (the embedded backend commits and closes, the pool stays open).
    No statement has run, so the embedded commit has no transaction to
    commit. *)
Lemma negative_batch_size drv t records data bs s : (bs < 0)%Z ->
  fst (PgHandler.insert_into_table_bulk drv t records bs s) = Ok (PStr "ok") /\
  calls (snd (PgHandler.insert_into_table_bulk drv t records bs s)) = calls s /\
  In (Info, str_nat (List.length records) ++ " records added to the table " ++ t)
     (log (snd (PgHandler.insert_into_table_bulk drv t records bs s))) /\
  fst (SqliteHandler.insert_into_table_bulk drv t records bs s) = Ok (PStr "ok") /\
  calls (snd (SqliteHandler.insert_into_table_bulk drv t records bs s))
    = (calls s ++ [Commit])%list /\
  In (Info, str_nat (List.length records) ++ " records added to the table " ++ t)
     (log (snd (SqliteHandler.insert_into_table_bulk drv t records bs s))) /\
  PgHandler.mass_update drv t data bs s = (Ok PNone, mkst true (calls s) (log s)) /\
  SqliteHandler.mass_update drv t data bs s
    = (Ok PNone, mkst false (calls s ++ [Commit]) (log s)).
Proof.
  intros H. unfold PgHandler.insert_into_table_bulk, SqliteHandler.insert_into_table_bulk,
    PgHandler.mass_update, SqliteHandler.mass_update.
  rewrite !(py_range0_neg _ bs H).
  repeat split; simpl; try reflexivity; apply in_or_app; right; left; reflexivity.
Qed.

(** With batch size 0, bulk update raises [ValueError] on the pooled
    backend with no call and no log line, while the embedded backend logs
    ["Error updating records: range() arg 3 must not be zero"], returns
    [None] and closes its connection. *)
Lemma mass_update_zero_batch drv t data s :
  let msg := "range() arg 3 must not be zero" in
  PgHandler.mass_update drv t data 0 s
    = (Raise (ValueError msg), mkst true (calls s) (log s)) /\
  SqliteHandler.mass_update drv t data 0 s
    = (Ok PNone, mkst false (calls s) (log s ++ [(Error, "Error updating records: " ++ msg)])).
Proof. split; reflexivity. Qed.

Section KeepsConn.

Lemma kc_ret {A} (a : A) : keeps_conn (ret a).
Proof. intros s. reflexivity. Qed.
Lemma kc_raise {A} e : keeps_conn (@raise A e).
Proof. intros s. reflexivity. Qed.
Lemma kc_log lv m : keeps_conn (log_msg lv m).
Proof. intros s. reflexivity. Qed.
Lemma kc_record c : keeps_conn (record_call c).
Proof. intros s. reflexivity. Qed.
Lemma kc_bind {A B} (m : M A) (k : A -> M B) :
  keeps_conn m -> (forall a, keeps_conn (k a)) -> keeps_conn (bind m k).
Proof.
  intros Hm Hk s. unfold bind. specialize (Hm s).
  destruct (m s) as [[a|e] s1]; simpl in *; [rewrite Hk|]; exact Hm.
Qed.
Lemma kc_try_except {A} (m : M A) h :
  keeps_conn m -> (forall e, keeps_conn (h e)) -> keeps_conn (try_except m h).
Proof.
  intros Hm Hh s. unfold try_except. specialize (Hm s).
  destruct (m s) as [[a|e] s1]; simpl in *; [|rewrite Hh]; exact Hm.
Qed.
Lemma kc_mfor {A} (l : list A) f : (forall x, keeps_conn (f x)) -> keeps_conn (mfor l f).
Proof. intros Hf. induction l; simpl; [apply kc_ret | apply kc_bind; auto]. Qed.
Lemma kc_mmap {A B} (f : A -> M B) l : (forall x, keeps_conn (f x)) -> keeps_conn (mmap f l).
Proof.
  intros Hf. induction l; simpl; [apply kc_ret|].
  apply kc_bind; [auto | intros; apply kc_bind; [auto | intros; apply kc_ret]].
Qed.
Lemma kc_dict_get d k : keeps_conn (dict_get d k).
Proof. induction d as [|[k' v] d IH]; simpl; [apply kc_raise|]. destruct (String.eqb k k'); auto using kc_ret. Qed.
Lemma kc_run_many drv q pss : keeps_conn (run_many drv q pss).
Proof. induction pss; simpl; [apply kc_ret|]. destruct (drv q a); auto using kc_raise. Qed.
Lemma kc_execute drv q ps : keeps_conn (execute drv q ps).
Proof. unfold execute. apply kc_bind; [apply kc_record|]. intros _. destruct (drv q ps); auto using kc_ret, kc_raise. Qed.
Lemma kc_fetchval drv q ps : keeps_conn (fetchval drv q ps).
Proof.
  unfold fetchval. apply kc_bind; [apply kc_record|]. intros _.
  destruct (drv q ps) as [[|[|[k v] r] rs]|m]; auto using kc_ret, kc_raise.
Qed.
Lemma kc_executemany drv q pss : keeps_conn (executemany drv q pss).
Proof. unfold executemany. apply kc_bind; [apply kc_record | intros; apply kc_run_many]. Qed.
Lemma kc_commit : keeps_conn SqliteHandler.commit.
Proof. apply kc_record. Qed.

End KeepsConn.

Create HintDb keeps_conn.
#[local] Hint Resolve kc_ret kc_raise kc_log kc_record kc_bind kc_try_except kc_mfor kc_mmap
  kc_dict_get kc_run_many kc_execute kc_fetchval kc_executemany kc_commit : keeps_conn.

Lemma connect_then_kc {A} (m : M A) s :
  keeps_conn m -> connected (snd ((connect ;; m) s)) = true.
Proof. intros H. rewrite (bind_ok connect _ s tt _ eq_refl). apply H. Qed.

(** The pooled backend's create, bulk update, bulk insert, delete and
    delete-all leave the pool open whatever the driver answers; the
    embedded backend's delete-all leaves its connection open too. *)
Lemma pg_pool_stays_open drv :
  (forall ti s, connected (snd (PgHandler.create_tables drv ti s)) = true) /\
  (forall t data bs s, connected (snd (PgHandler.mass_update drv t data bs s)) = true) /\
  (forall t records bs s,
     connected (snd (PgHandler.insert_into_table_bulk drv t records bs s)) = true) /\
  (forall t wc s, connected (snd (PgHandler.delete_data drv t wc s)) = true) /\
  (forall t s, connected (snd (PgHandler.delete_all_data_from_table drv t s)) = true) /\
  (forall t s, connected (snd (SqliteHandler.delete_all_data_from_table drv t s)) = true).
Proof.
  repeat split; intros.
  - apply connect_then_kc. cbv zeta. eauto 7 with keeps_conn.
  - apply connect_then_kc. apply kc_bind; [|eauto with keeps_conn].
    destruct (py_range0 _ _); [apply kc_raise|].
    apply kc_mfor. intros i. cbv zeta. apply kc_mfor. intros d.
    unfold PgHandler.update_one. destruct (Pg.update_stmt _ _ _).
    eauto 7 with keeps_conn.
  - apply connect_then_kc. apply kc_try_except; [|eauto 7 with keeps_conn].
    cbv zeta. apply kc_bind; [|eauto 7 with keeps_conn].
    destruct (py_range0 _ _); [apply kc_raise|].
    apply kc_mfor. intros i. eauto 8 with keeps_conn.
  - unfold PgHandler.delete_data, try_except.
    assert (Hk : keeps_conn (let '(query, vals) := Pg.delete_stmt t wc in
                   execute drv query vals ;;
                   log_msg Info ("Records in the table '" ++ t ++ "' successfully deleted.") ;;
                   ret (PStr "ok"))).
    { destruct (Pg.delete_stmt t wc). eauto 7 with keeps_conn. }
    rewrite (bind_ok connect _ s tt _ eq_refl).
    specialize (Hk (mkst true (calls s) (log s))).
    destruct (_ (mkst true (calls s) (log s))) as [[a|e] s1] eqn:E; simpl in *.
    + exact Hk.
    + unfold bind, log_msg, ret. simpl. exact Hk.
  - apply connect_then_kc. eauto 7 with keeps_conn.
  - apply connect_then_kc. eauto 7 with keeps_conn.
Qed.









Lemma dict_set_fresh (d : dict) k v : ~ In k (map fst d) -> dict_set d k v = (d ++ [(k, v)])%list.
Proof.
  induction d as [|[k' v'] d IH]; simpl; intros H; [reflexivity|].
  destruct (String.eqb_spec k k') as [E|_]; [subst; tauto|].
  rewrite IH by tauto. reflexivity.
Qed.

Lemma dict_of_pairs_nodup (l : list (string * value)) :
  NoDup (map fst l) -> dict_of_pairs l = l.
Proof.
  unfold dict_of_pairs. intros H.
  enough (G : forall acc, NoDup (map fst (acc ++ l)) ->
                fold_left (fun d '(k, v) => dict_set d k v) l acc = (acc ++ l)%list)
    by exact (G [] H).
  clear H. induction l as [|[k v] l IH]; intros acc Hn; simpl; [now rewrite app_nil_r|].
  rewrite dict_set_fresh.
  - rewrite IH; [now rewrite <- app_assoc|]. now rewrite <- app_assoc.
  - rewrite map_app in Hn. simpl in Hn. apply NoDup_remove_2 in Hn.
    rewrite in_app_iff in Hn. tauto.
Qed.

Lemma zip_keys {A B} (a : list A) (b : list B) : map fst (zip a b) = firstn (List.length b) a.
Proof.
  revert b. induction a as [|x a IH]; intros [|y b]; simpl; try reflexivity.
  now rewrite IH.
Qed.

Lemma NoDup_firstn {A} n (l : list A) : NoDup l -> NoDup (firstn n l).
Proof.
  intros H. rewrite <- (firstn_skipn n l) in H. apply NoDup_app_remove_r in H. exact H.
Qed.

(** When the select statement succeeds and every returned row has distinct
    column names, the pooled select returns the driver's rows unchanged,
    makes one fetch call, logs nothing and closes the pool. *)
Lemma pg_select_rows drv t fo wo bs s rows :
  let find_data := match fo with Some f => f | None => ["*"] end in
  let conds := match wo with Some w => w | None => [] end in
  drv (fst (Pg.build_select_query t find_data conds bs))
      (snd (Pg.build_select_query t find_data conds bs)) = DOk rows ->
  Forall (fun r : row => NoDup (map fst r)) rows ->
  PgHandler.select_data drv t fo wo bs s
  = (Ok (PRows rows),
     mkst false (calls s ++ [Fetch (fst (Pg.build_select_query t find_data conds bs))
                                   (snd (Pg.build_select_query t find_data conds bs))])
          (log s))%list.
Proof.
  cbv zeta. intros Hd Hr. unfold PgHandler.select_data.
  rewrite (bind_ok connect _ s tt _ eq_refl). cbv zeta.
  destruct (Pg.build_select_query _ _ _ _) as [q vs]. simpl in Hd |- *.
  unfold try_finally, try_except, fetch, bind, record_call, ret, close. simpl.
  rewrite Hd. simpl. do 3 f_equal.
  clear Hd. induction Hr as [|r rows Hr1 Hr IH]; [reflexivity|]. cbn [map].
  now rewrite dict_of_pairs_nodup, IH.
Qed.

(** When the select statement succeeds and the requested column list has
    no duplicate, the embedded select pairs the requested names with each
    row's values by position (as [zip] does, so the shorter side decides
    the length), makes one execute call, logs nothing and closes. *)
Lemma sqlite_select_rows drv t fo wo bs s rows :
  let find_data := match fo with Some f => f | None => ["*"] end in
  let conds := match wo with Some w => w | None => [] end in
  drv (fst (Sq.build_select_query t find_data conds bs))
      (snd (Sq.build_select_query t find_data conds bs)) = DOk rows ->
  NoDup find_data ->
  SqliteHandler.select_data drv t fo wo bs s
  = (Ok (PRows (map (fun r : row => zip find_data (map snd r)) rows)),
     mkst false (calls s ++ [Execute (fst (Sq.build_select_query t find_data conds bs))
                                     (snd (Sq.build_select_query t find_data conds bs))])
          (log s))%list.
Proof.
  cbv zeta. intros Hd Hn. unfold SqliteHandler.select_data.
  rewrite (bind_ok connect _ s tt _ eq_refl). cbv zeta.
  destruct (Sq.build_select_query _ _ _ _) as [q vs]. simpl in Hd |- *.
  unfold try_finally, try_except, execute, bind, record_call, ret, close. simpl.
  rewrite Hd. simpl. do 3 f_equal.
  rewrite map_map. apply map_ext. intros r.
  apply dict_of_pairs_nodup. rewrite zip_keys. now apply NoDup_firstn.
Qed.

Lemma las_app a b :
  list_ascii_of_string (a ++ b) = (list_ascii_of_string a ++ list_ascii_of_string b)%list.
Proof. induction a as [|c a IH]; simpl; [reflexivity | now rewrite IH]. Qed.

Lemma ends_app x y :
  ends_with_comma (x ++ y) = if String.eqb y "" then ends_with_comma x else ends_with_comma y.
Proof.
  unfold ends_with_comma. rewrite las_app, rev_app_distr.
  destruct y as [|c y']; simpl; [reflexivity|].
  destruct (rev (list_ascii_of_string y') ++ [c])%list eqn:E.
  - exfalso. exact (app_cons_not_nil _ _ _ (eq_sym E)).
  - reflexivity.
Qed.

Lemma ends_app_sfx x y c :
  ends_with_comma (x ++ String c y) = ends_with_comma (String c y).
Proof. rewrite ends_app. reflexivity. Qed.

Lemma ends_P t : ends_with_comma ("CREATE TABLE IF NOT EXISTS " ++ t ++ " (") = false.
Proof.
  rewrite ends_app. destruct (String.eqb_spec (t ++ " (") "") as [E|_].
  - destruct t; discriminate E.
  - now rewrite ends_app_sfx.
Qed.

Lemma rstrip_comma_id s : ends_with_comma s = false -> rstrip_comma s = s.
Proof.
  unfold rstrip_comma, ends_with_comma. intros H.
  destruct (rev (list_ascii_of_string s)) as [|c l] eqn:E.
  - simpl.
    assert (Hs : list_ascii_of_string s = [])
      by (rewrite <- (rev_involutive (list_ascii_of_string s)), E; reflexivity).
    rewrite <- (string_of_list_ascii_of_string s), Hs. reflexivity.
  - simpl. rewrite H, <- E, rev_involutive. apply string_of_list_ascii_of_string.
Qed.

Lemma rstrip_comma_app s : ends_with_comma s = false -> rstrip_comma (s ++ ",") = s.
Proof.
  intros H. unfold rstrip_comma. rewrite las_app, rev_app_distr. simpl.
  unfold ends_with_comma in H.
  destruct (rev (list_ascii_of_string s)) as [|c l] eqn:E.
  - simpl.
    assert (Hs : list_ascii_of_string s = [])
      by (rewrite <- (rev_involutive (list_ascii_of_string s)), E; reflexivity).
    rewrite <- (string_of_list_ascii_of_string s), Hs. reflexivity.
  - rewrite H, <- E, rev_involutive. apply string_of_list_ascii_of_string.
Qed.

Lemma fold_comma_items (x : string) l : forall q0,
  fold_left (fun q i => q ++ i ++ ",") (x :: l) q0 = (q0 ++ join "," (x :: l)) ++ ",".
Proof.
  revert x. induction l as [|y l IH]; intros x q0; simpl.
  - now rewrite str_app_assoc.
  - specialize (IH y (q0 ++ x ++ ",")). simpl in IH. rewrite IH.
    f_equal. rewrite !str_app_assoc. reflexivity.
Qed.

Lemma join_comma_end (items : list string) :
  Forall (fun i => i <> "" /\ ends_with_comma i = false) items -> items <> [] ->
  join "," items <> "" /\ ends_with_comma (join "," items) = false.
Proof.
  induction 1 as [|x l [Hx1 Hx2] Hl IH]; intros Hne; [congruence|].
  destruct l as [|y l]; [simpl; auto|].
  destruct (IH ltac:(discriminate)) as [J1 J2].
  rewrite join_cons2. split.
  - destruct x; [congruence | discriminate].
  - rewrite ends_app. change (String.eqb ("," ++ join "," (y :: l)) "") with false.
    cbv iota. rewrite ends_app.
    destruct (String.eqb_spec (join "," (y :: l)) "") as [E|_]; [congruence | exact J2].
Qed.

Lemma item_end a b :
  ends_with_comma b = false -> a ++ " " ++ b <> "" /\ ends_with_comma (a ++ " " ++ b) = false.
Proof.
  intros H. split; [destruct a; discriminate|].
  rewrite !ends_app. destruct (String.eqb_spec b "") as [->|_]; [|exact H].
  reflexivity.
Qed.

Lemma fold_left_map_in {A B C} (f : A -> B -> A) (g : C -> B) l a :
  fold_left f (map g l) a = fold_left (fun acc x => f acc (g x)) l a.
Proof. revert a. induction l as [|x l IH]; intros a; simpl; auto. Qed.

Lemma fold_left_ext_eq {A B} (f g : A -> B -> A) l a b :
  a = b -> (forall acc x, f acc x = g acc x) -> fold_left f l a = fold_left g l b.
Proof.
  intros <- H. revert a. induction l as [|x l IH]; intros a; simpl; [reflexivity|].
  now rewrite H.
Qed.

(** When no field type and no primary-key constraint ends with a comma,
    the CREATE TABLE text is [CREATE TABLE IF NOT EXISTS <name> (<items>)],
    the items being the primary-key definition and then [<field> <type>]
    for each field, joined by commas: [rstrip(',')] removes exactly the
    trailing separator. *)
Lemma create_query_form ti :
  Forall (fun f => ends_with_comma (snd f) = false) (fields ti) ->
  match primary_key ti with Some (_, _, c) => ends_with_comma c = false | None => True end ->
  create_query ti
  = "CREATE TABLE IF NOT EXISTS " ++ name_table ti ++ " ("
      ++ join "," (List.app (match primary_key ti with
                             | Some (a, b, c) => [a ++ " " ++ b ++ " " ++ c]
                             | None => []
                             end)
                            (map (fun '(field_name, field_type) =>
                                    field_name ++ " " ++ field_type)
                                 (fields ti)))
      ++ ")".
Proof.
  intros Hf Hp. unfold create_query.
  set (P := "CREATE TABLE IF NOT EXISTS " ++ name_table ti ++ " (").
  set (pk := match primary_key ti with
             | Some (a, b, c) => [a ++ " " ++ b ++ " " ++ c]
             | None => []
             end).
  set (items := List.app pk (map (fun '(field_name, field_type) =>
                                    field_name ++ " " ++ field_type) (fields ti))).
  assert (Hq : fold_left (fun q '(field_name, field_type) =>
                            q ++ field_name ++ " " ++ field_type ++ ",")
                         (fields ti)
                         (match primary_key ti with
                          | Some (a, b, c) => P ++ a ++ " " ++ b ++ " " ++ c ++ ","
                          | None => P
                          end)
               = fold_left (fun q i => q ++ i ++ ",") items P).
  { unfold items. rewrite fold_left_app, fold_left_map_in.
    unfold pk. destruct (primary_key ti) as [[[a b] c]|]; cbn [fold_left];
      apply fold_left_ext_eq; try (intros q [n ty]); now rewrite ?str_app_assoc. }
  fold P. rewrite Hq.
  assert (Hi : Forall (fun i => i <> "" /\ ends_with_comma i = false) items).
  { unfold items. apply Forall_app. split.
    - unfold pk. destruct (primary_key ti) as [[[a b] c]|]; constructor; [|constructor].
      apply item_end, (item_end b c Hp).
    - apply Forall_map. eapply Forall_impl; [|exact Hf]. intros [n ty] H. now apply item_end. }
  destruct items as [|x l] eqn:Ei.
  - cbn [fold_left]. rewrite rstrip_comma_id.
    + unfold P. rewrite !str_app_assoc. reflexivity.
    +
    apply ends_P.
  - rewrite fold_comma_items, rstrip_comma_app.
    + unfold P. now rewrite !str_app_assoc.
    + destruct (join_comma_end (x :: l) Hi ltac:(discriminate)) as [J1 J2].
      rewrite ends_app. destruct (String.eqb_spec (join "," (x :: l)) "") as [E|_];
        [contradiction | exact J2].
Qed.

Lemma qmarks_app a b : qmarks (a ++ b) = qmarks a + qmarks b.
Proof. induction a as [|c a IH]; simpl; [reflexivity|]. rewrite IH. lia. Qed.

Lemma qmarks_join sep l :
  qmarks sep = 0 -> qmarks (join sep l) = list_sum (map qmarks l).
Proof.
  intros Hs. induction l as [|x l IH]; [reflexivity|].
  destruct l as [|y l'].
  - simpl. lia.
  - change (join sep (x :: y :: l')) with (x ++ sep ++ join sep (y :: l')).
    rewrite !qmarks_app, IH, Hs. reflexivity.
Qed.

Lemma qmarks_uint0 u : qmarks (NilEmpty.string_of_uint u) = 0.
Proof. induction u; simpl; auto. Qed.

Lemma qmarks_uint u : qmarks (NilZero.string_of_uint u) = 0.
Proof. destruct u; try reflexivity; apply qmarks_uint0. Qed.

Lemma qmarks_str_Z z : qmarks (str_Z z) = 0.
Proof.
  unfold str_Z. destruct (Z.to_int z) as [u|u]; simpl.
  - apply qmarks_uint.
  - apply qmarks_uint.
Qed.

Lemma qmarks_keys_eq (d : dict) :
  qfree_keys d ->
  list_sum (map qmarks (map (fun k => k ++ " = ?") (dict_keys d))) = List.length d.
Proof.
  induction 1 as [|[k v] d Hk _ IH]; [reflexivity|].
  simpl. rewrite qmarks_app. simpl in Hk. rewrite Hk, IH. reflexivity.
Qed.

Lemma qmarks_select_clause (c : dict) :
  qfree_keys c ->
  qmarks (Sq.select_clause c) = List.length (filter (fun v => negb (is_none v)) (dict_values c)).
Proof.
  intros H. unfold Sq.select_clause. rewrite qmarks_join by reflexivity.
  induction H as [|[k v] d Hk _ IH]; [reflexivity|].
  simpl in *. rewrite IH. destruct v; simpl; rewrite qmarks_app, Hk; reflexivity.
Qed.

Lemma qmarks_where_loop conds wc cv :
  Forall qfree_keys conds ->
  list_sum (map qmarks wc) = List.length cv ->
  let '(w, v) := Sq.where_loop conds wc cv in list_sum (map qmarks w) = List.length v.
Proof.
  intros H. revert wc cv. induction H as [|c conds Hc _ IH]; intros wc cv E; [exact E|].
  destruct c as [|kv c'] eqn:Ec; cbn [Sq.where_loop]; apply IH; [exact E|].
  rewrite map_app, list_sum_app, length_app, E. cbn [map list_sum].
  rewrite <- Ec, qmarks_select_clause by (subst; exact Hc). simpl; lia.
Qed.

Lemma qmarks_sum0 l : Forall (fun c => qmarks c = 0) l -> list_sum (map qmarks l) = 0.
Proof. induction 1 as [|x l Hx _ IH]; simpl; lia. Qed.

Lemma null_cols_qfree wc : qfree_keys wc -> Forall (fun c => qmarks c = 0) (Pg.null_cols wc).
Proof.
  unfold Pg.null_cols. induction 1 as [|[k v] d Hk _ IH]; simpl; [constructor|].
  destruct (is_none v); simpl; [constructor|]; assumption.
Qed.

Lemma qmarks_paren l :
  list_sum (map qmarks (map (fun c => "(" ++ c ++ ")") l)) = list_sum (map qmarks l).
Proof.
  induction l as [|x l IH]; [reflexivity|].
  simpl in *. rewrite qmarks_app. simpl. lia.
Qed.

Lemma qmarks_qs {A} (l : list A) :
  list_sum (map qmarks (map (fun _ => "?") l)) = List.length l.
Proof. induction l as [|x l IH]; [reflexivity|]. simpl in *. lia. Qed.

(** When the table and column names contain no [?], every statement of the
    embedded backend has as many [?] placeholders as bound values: select
    (null-valued columns included), update, delete and count; the INSERT
    template has one [?] per column. *)
Lemma sqlite_placeholder_count t f conds bs wd ud wc cols :
  qmarks t = 0 -> Forall (fun c => qmarks c = 0) f -> Forall qfree_keys conds ->
  qfree_keys wd -> qfree_keys ud -> qfree_keys wc ->
  Forall (fun c => qmarks c = 0) cols ->
  (let '(q, vs) := Sq.build_select_query t f conds bs in qmarks q = List.length vs) /\
  (let '(q, vs) := Sq.update_stmt t wd ud in qmarks q = List.length vs) /\
  (let '(q, vs) := Sq.delete_stmt t wc in qmarks q = List.length vs) /\
  (let '(q, vs) := Sq.count_stmt t wc in qmarks q = List.length vs) /\
  qmarks (Sq.insert_query t cols) = List.length cols.
Proof.
  intros Ht Hf Hc Hwd Hud Hwc Hcols. repeat split.
  - unfold Sq.build_select_query.
    assert (Hq : qmarks ("SELECT " ++ join ", " f ++ " FROM " ++ t) = 0).
    { rewrite !qmarks_app, qmarks_join, qmarks_sum0, Ht by (reflexivity || exact Hf).
      reflexivity. }
    destruct conds as [|c0 conds']; [exact Hq|].
    pose proof (qmarks_where_loop (c0 :: conds') [] [] Hc eq_refl) as Hw.
    destruct (Sq.where_loop (c0 :: conds') [] []) as [w v].
    destruct w as [|w0 w'].
    + simpl in Hw. rewrite Hq, <- Hw. reflexivity.
    + assert (Hq2 : qmarks (("SELECT " ++ join ", " f ++ " FROM " ++ t) ++ " WHERE "
                      ++ join " OR " (map (fun c => "(" ++ c ++ ")") (w0 :: w'))) = List.length v).
      { rewrite qmarks_app, Hq, qmarks_app, qmarks_join, qmarks_paren, Hw by reflexivity.
        reflexivity. }
      destruct (Z.eqb bs 0); [exact Hq2|].
      rewrite qmarks_app, Hq2, qmarks_app, qmarks_str_Z. simpl. lia.
  - unfold Sq.update_stmt. rewrite !qmarks_app, !qmarks_join, Ht by reflexivity.
    unfold dict_values. rewrite length_app, !length_map, !qmarks_keys_eq by assumption.
    simpl. lia.
  - unfold Sq.delete_stmt. unfold dict_values. rewrite length_map.
    destruct wc as [|kv wc']; [simpl; exact Ht|].
    rewrite !qmarks_app, qmarks_join, qmarks_keys_eq, Ht by (reflexivity || assumption).
    reflexivity.
  - unfold Sq.count_stmt. unfold dict_values. rewrite length_map.
    pose proof (null_cols_qfree wc Hwc) as Hn.
    assert (Hw : qmarks (join " AND " (map (fun col => col ++ " = ?") (dict_keys wc))) = List.length wc)
      by (rewrite qmarks_join, qmarks_keys_eq by (reflexivity || assumption); reflexivity).
    assert (Hq : qmarks (if String.eqb (join " AND " (map (fun col => col ++ " = ?") (dict_keys wc))) ""
                         then "SELECT COUNT(*) FROM " ++ t
                         else ("SELECT COUNT(*) FROM " ++ t) ++ " WHERE "
                                ++ join " AND " (map (fun col => col ++ " = ?") (dict_keys wc)))
                 = List.length wc).
    { destruct (String.eqb_spec (join " AND " (map (fun col => col ++ " = ?") (dict_keys wc))) "") as [E|_].
      - rewrite E in Hw. simpl in Hw. rewrite qmarks_app, Ht, <- Hw. reflexivity.
      - rewrite !qmarks_app, Ht, Hw. reflexivity. }
    destruct (Pg.null_cols wc) as [|c ns]; [exact Hq|].
    inversion Hn as [|? ? Hc0]; subst.
    rewrite !qmarks_app, Hq, Hc0. simpl. lia.
  - unfold Sq.insert_query. rewrite !qmarks_app, !qmarks_join, qmarks_sum0, Ht by (reflexivity || exact Hcols).
    rewrite qmarks_qs, length_seq. simpl. lia.
Qed.

Lemma pg_where_loop_filter conds : forall wc cv,
  Pg.where_loop (filter nonempty_cond conds) wc cv = Pg.where_loop conds wc cv.
Proof. induction conds as [|[|kv c] conds IH]; intros; simpl; auto. Qed.

Lemma sq_where_loop_filter conds : forall wc cv,
  Sq.where_loop (filter nonempty_cond conds) wc cv = Sq.where_loop conds wc cv.
Proof. induction conds as [|[|kv c] conds IH]; intros; simpl; auto. Qed.

Lemma pg_where_loop_empty conds : forall wc cv,
  filter nonempty_cond conds = [] -> Pg.where_loop conds wc cv = (wc, cv).
Proof.
  intros wc cv H. rewrite <- pg_where_loop_filter, H. reflexivity.
Qed.

Lemma sq_where_loop_empty conds : forall wc cv,
  filter nonempty_cond conds = [] -> Sq.where_loop conds wc cv = (wc, cv).
Proof.
  intros wc cv H. rewrite <- sq_where_loop_filter, H. reflexivity.
Qed.

(** Empty Conditions in the ConditionSet are ignored: the select statement
    and its bound values are those built from the non-empty Conditions
    alone, on both backends. *)
Lemma select_ignores_empty_conditions t f conds bs :
  Pg.build_select_query t f (filter nonempty_cond conds) bs = Pg.build_select_query t f conds bs /\
  Sq.build_select_query t f (filter nonempty_cond conds) bs = Sq.build_select_query t f conds bs.
Proof.
  unfold Pg.build_select_query, Sq.build_select_query.
  rewrite pg_where_loop_filter, sq_where_loop_filter.
  destruct (filter nonempty_cond conds) as [|c0 cs] eqn:E.
  - destruct conds as [|c conds']; [split; reflexivity|].
    rewrite pg_where_loop_empty, sq_where_loop_empty by exact E. split; reflexivity.
  - destruct conds as [|c conds']; [discriminate E|]. split; reflexivity.
Qed.

Lemma phs_dollar_pieces n : forall i,
  Forall2 phs (map (fun j => "$" ++ str_nat (j + 1)) (seq i n))
              (map (fun j => [str_nat (j + 1)]) (seq i n)).
Proof. induction n as [|n IH]; intros i; simpl; constructor; [apply phs_ph | apply IH]. Qed.

(** When the table and column names contain no [$], the pooled INSERT
    template holds the placeholders [$1 .. $n] in order, [n] being the
    number of columns. *)
Lemma pg_insert_placeholders t cols :
  dollar_free t = true -> forallb dollar_free cols = true ->
  placeholders (Pg.insert_query t cols) = map str_nat (seq 1 (List.length cols)).
Proof.
  intros Ht Hc. unfold Pg.insert_query. apply placeholders_of_phs.
  apply phs_pre; [reflexivity|]. apply phs_pre; [exact Ht|].
  apply phs_pre; [reflexivity|]. apply phs_pre; [now apply dollar_free_join|].
  apply phs_pre; [reflexivity|].
  rewrite <- (app_nil_r (map str_nat _)).
  apply phs_app; [| apply phs_df; reflexivity | reflexivity].
  replace (map str_nat (seq 1 (List.length cols)))
    with (List.concat (map (fun j => [str_nat (j + 1)]) (seq 0 (List.length cols)))).
  - apply phs_join; [reflexivity | intros; reflexivity | apply phs_dollar_pieces].
  - rewrite concat_singles.
    transitivity (map str_nat (map (fun j => j + 1) (seq 0 (List.length cols)))).
    + now rewrite map_map.
    + f_equal. apply (map_seq_shift _ 1). intros; lia.
Qed.






Lemma dict_find_set d k v x :
  dict_find (dict_set d k v) x = if String.eqb x k then Some v else dict_find d x.
Proof.
  induction d as [|[k' v'] d IH]; simpl.
  - destruct (String.eqb x k); reflexivity.
  - destruct (String.eqb_spec k k') as [->|Hne]; simpl.
    + destruct (String.eqb x k'); reflexivity.
    + rewrite IH. destruct (String.eqb_spec x k') as [->|]; [|reflexivity].
      destruct (String.eqb_spec k' k); [congruence | reflexivity].
Qed.

Lemma dict_find_app (a b : dict) x :
  dict_find (a ++ b)%list x = match dict_find a x with Some v => Some v | None => dict_find b x end.
Proof.
  induction a as [|[k v] a IH]; simpl; [reflexivity|].
  destruct (String.eqb x k); [reflexivity | exact IH].
Qed.

Lemma keys_dict_set d k v :
  NoDup (map fst d) ->
  NoDup (map fst (dict_set d k v)) /\
  (forall x, In x (map fst (dict_set d k v)) <-> k = x \/ In x (map fst d)).
Proof.
  induction d as [|[k' v'] d IH]; intros Hn; simpl.
  - split; [constructor; [intros []|constructor]|]. intros x. tauto.
  - inversion Hn as [|? ? Hk' Hd]; subst.
    destruct (String.eqb_spec k k') as [->|Hne]; simpl.
    + split; [exact Hn|]. intros x. tauto.
    + destruct (IH Hd) as [IH1 IH2]. split.
      * constructor; [|exact IH1]. rewrite IH2. intros [E|E]; [congruence | contradiction].
      * intros x. rewrite IH2. tauto.
Qed.

Lemma keys_dict_set_order (d : dict) k v :
  map fst (dict_set d k v)
  = if existsb (String.eqb k) (map fst d) then map fst d else (map fst d ++ [k])%list.
Proof.
  induction d as [|[k' v'] d IH]; simpl; [reflexivity|].
  destruct (String.eqb_spec k k') as [->|_]; simpl; [reflexivity|].
  rewrite IH. destruct (existsb (String.eqb k) (map fst d)); reflexivity.
Qed.

Lemma keys_dict_of_pairs l :
  map fst (dict_of_pairs l) = first_occurrences (map fst l).
Proof.
  unfold dict_of_pairs, first_occurrences.
  enough (G : forall acc : dict,
    map fst (fold_left (fun d '(k, v) => dict_set d k v) l acc)
    = fold_left (fun ks k => if existsb (String.eqb k) ks then ks else (ks ++ [k])%list)
                (map fst l) (map fst acc)) by exact (G []).
  induction l as [|[k v] l IH]; intros acc; simpl; [reflexivity|].
  rewrite IH, keys_dict_set_order. reflexivity.
Qed.

Lemma dict_of_pairs_entries l :
  NoDup (map fst (dict_of_pairs l)) /\
  (forall x, In x (map fst (dict_of_pairs l)) <-> In x (map fst l)) /\
  (forall x, dict_find (dict_of_pairs l) x = dict_find (rev l) x).
Proof.
  unfold dict_of_pairs.
  enough (G : forall acc, NoDup (map fst acc) ->
    NoDup (map fst (fold_left (fun d '(k, v) => dict_set d k v) l acc)) /\
    (forall x, In x (map fst (fold_left (fun d '(k, v) => dict_set d k v) l acc))
               <-> In x (map fst acc) \/ In x (map fst l)) /\
    (forall x, dict_find (fold_left (fun d '(k, v) => dict_set d k v) l acc) x
               = match dict_find (rev l) x with Some v => Some v | None => dict_find acc x end)).
  { destruct (G [] (NoDup_nil _)) as [G1 [G2 G3]]. split; [exact G1|]. split.
    - intros x. rewrite G2. simpl. tauto.
    - intros x. rewrite G3. destruct (dict_find (rev l) x); reflexivity. }
  induction l as [|[k v] l IH]; intros acc Hn; simpl.
  - split; [exact Hn|]. split; [intros x; tauto | reflexivity].
  - destruct (keys_dict_set acc k v Hn) as [S1 S2].
    destruct (IH _ S1) as [I1 [I2 I3]]. split; [exact I1|]. split.
    + intros x. rewrite I2, S2. tauto.
    + intros x. rewrite I3, dict_find_app, dict_find_set. simpl.
      destruct (dict_find (rev l) x); [reflexivity|].
      destruct (String.eqb x k); reflexivity.
Qed.

(** [dict(pairs)], used by select to build each row, keeps one entry per
    column name, in order of first appearance, holding the value of the
    last pair with that name. *)
Lemma dict_of_pairs_last_wins l :
  NoDup (map fst (dict_of_pairs l)) /\
  (forall x, In x (map fst (dict_of_pairs l)) <-> In x (map fst l)) /\
  (forall x, dict_find (dict_of_pairs l) x = dict_find (rev l) x) /\
  map fst (dict_of_pairs l) = first_occurrences (map fst l).
Proof.
  destruct (dict_of_pairs_entries l) as [H1 [H2 H3]].
  split; [exact H1|]. split; [exact H2|]. split; [exact H3|].
  apply keys_dict_of_pairs.
Qed.

(** When the count statement succeeds, the pooled count returns the first
    column of the first row ([None] when there is no row), makes one
    [fetchval] call, logs the info line ["<count> results in the database
    for the specified query"] and leaves the pool open. *)
Lemma pg_count_result drv t wc s rows :
  t <> "" ->
  drv (fst (Pg.count_stmt t wc)) (snd (Pg.count_stmt t wc)) = DOk rows ->
  let count := match rows with ((_, v) :: _) :: _ => v | _ => VNull end in
  PgHandler.count_records drv t (ADict wc) s
  = (Ok (PVal count),
     mkst true (calls s ++ [FetchVal (fst (Pg.count_stmt t wc)) (snd (Pg.count_stmt t wc))])
          (log s ++ [(Info, str_value count ++ " results in the database for the specified query")])).
Proof.
  intros Ht Hd. cbv zeta. unfold PgHandler.count_records.
  destruct (String.eqb_spec t "") as [E|_]; [contradiction|].
  destruct (Pg.count_stmt t wc) as [q vs]. cbn [fst snd] in *.
  unfold try_except, bind, connect, fetchval, record_call, log_msg, ret. simpl.
  rewrite Hd. destruct rows as [|[|[k v] r] rows]; reflexivity.
Qed.

(** ** Witnesses of the further properties *)

Lemma count_invalid_args_witness :
  PgHandler.count_records users_driver "" (ADict []) st0
  = (Raise (ValueError "Invalid parameters"), st0).
Proof.
  exact (proj1 (count_invalid_args users_driver "" (ADict []) st0 (or_intror eq_refl))).
Defined.

Lemma insert_empty_records_witness :
  fst (SqliteHandler.insert_into_table_bulk users_driver "users" [] 1000 st0) = Ok (PStr "ok").
Proof.
  destruct (insert_empty_records users_driver "users" 1000 st0 ltac:(discriminate))
    as [_ [_ [H _]]].
  exact H.
Defined.

Lemma negative_batch_size_witness :
  calls (snd (PgHandler.insert_into_table_bulk users_driver "users"
                [[("id", VInt 1)]] (-1) st0)) = [].
Proof.
  destruct (negative_batch_size users_driver "users" [[("id", VInt 1)]] [] (-1) st0
              ltac:(lia)) as [_ [H _]].
  exact H.
Defined.


Lemma pg_select_rows_witness :
  fst (PgHandler.select_data users_driver "users" None None 1000 st0)
  = Ok (PRows [[("id", VInt 1); ("name", VStr "John"); ("age", VInt 25)]]).
Proof.
  rewrite (pg_select_rows users_driver "users" None None 1000 st0
             [[("id", VInt 1); ("name", VStr "John"); ("age", VInt 25)]] eq_refl).
  - reflexivity.
  - repeat constructor; simpl; intuition discriminate.
Defined.

Lemma sqlite_select_rows_witness :
  fst (SqliteHandler.select_data users_driver "users" (Some ["id"; "name"]) None 1000 st0)
  = Ok (PRows [[("id", VInt 1); ("name", VStr "John")]]).
Proof.
  rewrite (sqlite_select_rows users_driver "users" (Some ["id"; "name"]) None 1000 st0
             [[("id", VInt 1); ("name", VStr "John"); ("age", VInt 25)]] eq_refl).
  - reflexivity.
  - repeat constructor; simpl; intuition discriminate.
Defined.

Lemma create_query_form_witness :
  create_query {| name_table := "users";
                  primary_key := Some ("id", "INTEGER", "PRIMARY KEY");
                  fields := [("name", "TEXT"); ("age", "INTEGER")] |}
  = "CREATE TABLE IF NOT EXISTS users (id INTEGER PRIMARY KEY,name TEXT,age INTEGER)".
Proof.
  rewrite create_query_form.
  - reflexivity.
  - repeat constructor.
  - reflexivity.
Defined.

Lemma sqlite_placeholder_count_witness :
  qmarks (fst (Sq.build_select_query "users" ["name"]
                 [[("age", VInt 30); ("city", VNull)]] 10)) = 1.
Proof.
  destruct (sqlite_placeholder_count "users" ["name"] [[("age", VInt 30); ("city", VNull)]] 10
              [] [] [] [] eq_refl ltac:(repeat constructor) ltac:(repeat constructor)
              ltac:(repeat constructor) ltac:(repeat constructor) ltac:(repeat constructor)
              ltac:(repeat constructor)) as [H _].
  exact H.
Defined.

Lemma pg_insert_placeholders_witness :
  placeholders (Pg.insert_query "users" ["name"; "age"]) = ["1"; "2"].
Proof. exact (pg_insert_placeholders "users" ["name"; "age"] eq_refl eq_refl). Defined.


Lemma pg_count_result_witness :
  fst (PgHandler.count_records users_driver "users" (ADict []) st0) = Ok (PVal (VInt 1)).
Proof.
  rewrite (pg_count_result users_driver "users" [] st0 _ ltac:(discriminate) eq_refl).
  reflexivity.
Defined.
